(** * Fan controller for a bench power supply: a model of [firmware/main.c]

    The firmware is one C function, [main], running on a small AVR part.
    After a few register writes it either enters a diagnostic blink loop
    (when the previous reset came from the watchdog) or the control loop,
    whose body runs once per wake-up: consume the watchdog tick, sample the
    temperature every [TEMP_MEASURE_INTERVAL] ticks, poll the push button,
    decide the fan output, sleep.

    Every [uint8_t] variable is a [Z] whose wrap-around is written out with
    [u8]; the I/O registers are 8-bit [Z] values handled with [Z.lor],
    [Z.land], [Z.lnot] and [Z.testbit], as the macros of the source do.
    What the hardware supplies (the watchdog flag, the ADC result, the pin
    register) is an explicit input of each loop iteration. *)

From Stdlib Require Import ZArith Bool List Lia.
Import ListNotations.
Local Open Scope Z_scope.

(** ** Machine integers and bit macros *)

(** Storing an [int] expression into a [uint8_t]. *)
Definition u8 (z : Z) : Z := z mod 256.

(** avr-libc's [_BV(bit)] is [1 << bit]. *)
Definition _BV (bit : Z) : Z := Z.shiftl 1 bit.

(** ** Constants ([#define]s of main.c, lines 17-29) *)

Definition FAN_OVERRIDE_NONE : Z := 0.
Definition FAN_OVERRIDE_ON : Z := 1.
Definition FAN_OVERRIDE_OFF : Z := 2.

Definition FAN_COOL_TIME : Z := 125.
Definition TEMP_MEASURE_INTERVAL : Z := 32.

Definition HOT_VAL : Z := 23.
Definition COOL_VAL : Z := 27.

(** Bit numbers of the port pins: "PB0 = Fan out", "PB1 = Switch in"
    (main.c lines 38-39). *)
Definition PORTB0 : Z := 0.
Definition PINB1 : Z := 1.

(** ** The control loop's variables (main.c lines 70-75) and the fan port *)

Record vars : Set := mkVars {
  now : Z;
  lastMeasureTemp : Z;
  lastHotTime : Z;
  hot : Z;
  btnIsPressed : Z;
  fanOverride : Z;
  PORTB : Z
}.

Definition set_now (v : Z) (s : vars) : vars :=
  mkVars v (lastMeasureTemp s) (lastHotTime s) (hot s) (btnIsPressed s)
         (fanOverride s) (PORTB s).
Definition set_lastMeasureTemp (v : Z) (s : vars) : vars :=
  mkVars (now s) v (lastHotTime s) (hot s) (btnIsPressed s)
         (fanOverride s) (PORTB s).
Definition set_lastHotTime (v : Z) (s : vars) : vars :=
  mkVars (now s) (lastMeasureTemp s) v (hot s) (btnIsPressed s)
         (fanOverride s) (PORTB s).
Definition set_hot (v : Z) (s : vars) : vars :=
  mkVars (now s) (lastMeasureTemp s) (lastHotTime s) v (btnIsPressed s)
         (fanOverride s) (PORTB s).
Definition set_btnIsPressed (v : Z) (s : vars) : vars :=
  mkVars (now s) (lastMeasureTemp s) (lastHotTime s) (hot s) v
         (fanOverride s) (PORTB s).
Definition set_fanOverride (v : Z) (s : vars) : vars :=
  mkVars (now s) (lastMeasureTemp s) (lastHotTime s) (hot s) (btnIsPressed s)
         v (PORTB s).
Definition set_PORTB (v : Z) (s : vars) : vars :=
  mkVars (now s) (lastMeasureTemp s) (lastHotTime s) (hot s) (btnIsPressed s)
         (fanOverride s) v.

(** What the hardware hands to one iteration of the loop: whether the
    watchdog interrupt has fired since it was last re-armed (line 112), the
    ADC result read at line 137 when a sample is taken, and the two reads
    of the pin register made by the two [BTN_ISPRESSED()] tests (lines 155
    and 176). *)
Record input : Set := mkInput {
  wdt_timedout : bool;
  ADCL : Z;
  PINB_155 : Z;
  PINB_176 : Z
}.

(** ** Macros (main.c lines 34-36) *)

(** [FAN_ON()] is [PORTB |= _BV(PORTB0)]. *)
Definition FAN_ON (s : vars) : vars :=
  set_PORTB (u8 (Z.lor (PORTB s) (_BV PORTB0))) s.

(** [FAN_OFF()] is [PORTB &= ~_BV(PORTB0)]. *)
Definition FAN_OFF (s : vars) : vars :=
  set_PORTB (u8 (Z.land (PORTB s) (Z.lnot (_BV PORTB0)))) s.

(** [BTN_ISPRESSED()] is [!(PINB & _BV(PINB1))]: the switch pulls low. *)
Definition BTN_ISPRESSED (pinb : Z) : bool :=
  Z.land pinb (_BV PINB1) =? 0.

(** The fan output pin. *)
Definition fan_is_on (s : vars) : bool := Z.testbit (PORTB s) PORTB0.

(** C truth value of a [uint8_t] used as a condition. *)
Definition truthy (z : Z) : bool := negb (z =? 0).

(** [(uint8_t)(now - last)]: the age of a time stamp, lines 118 and 181. *)
Definition age (t last : Z) : Z := u8 (t - last).

(** ** The four steps of the loop body *)

(** Lines 112-116: consume the watchdog tick. *)
Definition tick_step (timedout : bool) (s : vars) : vars :=
  if timedout then set_now (u8 (now s + 1)) s else s.

(** Lines 144-151: the hysteresis on a raw reading, then the time stamp. *)
Definition hysteresis (val : Z) (s : vars) : vars :=
  let s1 := if val >? COOL_VAL then set_hot 0 s
            else if val <? HOT_VAL then set_hot 1 s
            else s in
  if truthy (hot s1) then set_lastHotTime (now s1) s1 else s1.

(** Lines 118-152: the temperature sampler. *)
Definition sample_step (val : Z) (s : vars) : vars :=
  if age (now s) (lastMeasureTemp s) >=? TEMP_MEASURE_INTERVAL
  then hysteresis val (set_lastMeasureTemp (now s) s)
  else s.

(** Lines 159-174: the body of the press branch. *)
Definition cycle_override (s : vars) : vars :=
  if fanOverride s =? FAN_OVERRIDE_NONE
  then FAN_ON (set_fanOverride FAN_OVERRIDE_ON s)
  else if fanOverride s =? FAN_OVERRIDE_ON
  then FAN_OFF (set_fanOverride FAN_OVERRIDE_OFF s)
  else
    let s1 := set_fanOverride FAN_OVERRIDE_NONE s in
    if negb (truthy (hot s1))
    then set_lastHotTime (u8 (now s1 - FAN_COOL_TIME)) s1
    else s1.

(** Lines 155-177: the button poll. *)
Definition input_step (pinb_a pinb_b : Z) (s : vars) : vars :=
  if BTN_ISPRESSED pinb_a && negb (truthy (btnIsPressed s))
  then cycle_override (set_btnIsPressed 1 s)
  else if negb (BTN_ISPRESSED pinb_b) && truthy (btnIsPressed s)
  then set_btnIsPressed 0 s
  else s.

(** Lines 179-188: the automatic fan decision. *)
Definition decide_step (s : vars) : vars :=
  if fanOverride s =? FAN_OVERRIDE_NONE
  then
    if truthy (hot s) || (age (now s) (lastHotTime s) <? FAN_COOL_TIME)
    then FAN_ON s
    else set_lastHotTime (u8 (now s - FAN_COOL_TIME)) (FAN_OFF s)
  else s.

(** The state at line 155, after the tick and the sampler. *)
Definition before_input (i : input) (s : vars) : vars :=
  sample_step (ADCL i) (tick_step (wdt_timedout i) s).

(** The state at line 179, after the sampler and the button poll. *)
Definition before_decide (i : input) (s : vars) : vars :=
  input_step (PINB_155 i) (PINB_176 i) (before_input i s).

(** One pass through the body of [while(1)] at line 108.  The sleep at
    lines 191-201 changes no variable. *)
Definition loop_iter (i : input) (s : vars) : vars :=
  decide_step (before_decide i s).

(** Lines 70-75: the variables at loop entry.  [portb] is the content of
    the port register, which [main] does not write before the loop. *)
Definition loop_init (portb : Z) : vars :=
  mkVars 0 0 (u8 ((0 - FAN_COOL_TIME) + 31)) 0 0 FAN_OVERRIDE_NONE portb.

(** The loop run over a finite prefix of the inputs, oldest first. *)
Fixpoint loop_run (ins : list input) (s : vars) : vars :=
  match ins with
  | [] => s
  | i :: rest => loop_run rest (loop_iter i s)
  end.

(** ** The whole of [main]: diagnostic loop or control loop *)

(** Storing into the [uint16_t] counters of lines 85 and 95. *)
Definition u16 (z : Z) : Z := z mod 65536.

(** Where control is between two steps: at the test of the first [for]
    (line 85) or of the second (line 95) with the value of its counter, or
    at the top of the control loop (line 108). *)
Inductive pc : Set :=
| AtFor1 (i : Z)
| AtFor2 (i : Z)
| AtLoop.

(** Ghost counters of the diagnostic loop: the microseconds spent in
    [_delay_us], the value of that clock at the latest [WDT_INT_RESET()],
    and the number of [WDT_INT_RESET()] calls made. *)
Record diag : Set := mkDiag {
  delay_us : Z;
  rearm_at_us : Z;
  rearms : Z
}.

Record machine : Set := mkMachine {
  mpc : pc;
  mvars : vars;
  mdiag : diag
}.

(** [WDT_INT_RESET(); _delay_us(100);], the body of both [for] loops. *)
Definition rearm_and_delay (d : diag) : diag :=
  let d1 := mkDiag (delay_us d) (delay_us d) (rearms d + 1) in
  mkDiag (delay_us d1 + 100) (rearm_at_us d1) (rearms d1).

(** One step inside [while(1)] of lines 82-103: one turn of a [for] loop,
    or leaving it through the fan statement that follows. *)
Definition blink_step (m : machine) : machine :=
  match mpc m with
  | AtFor1 i =>
      if i <? 20000
      then mkMachine (AtFor1 (u16 (i + 1))) (mvars m) (rearm_and_delay (mdiag m))
      else mkMachine (AtFor2 0) (FAN_ON (mvars m)) (mdiag m)
  | AtFor2 i =>
      if i <? 5000
      then mkMachine (AtFor2 (u16 (i + 1))) (mvars m) (rearm_and_delay (mdiag m))
      else mkMachine (AtFor1 0) (FAN_OFF (mvars m)) (mdiag m)
  | AtLoop => m
  end.

(** Line 80: [rstflr_mirror & _BV(WDRF)].  The bit number [WDRF] comes from
    the device header and is a parameter here. *)
Definition was_wdt_reset (WDRF rstflr_mirror : Z) : bool :=
  negb (Z.land rstflr_mirror (_BV WDRF) =? 0).

(** Lines 56-106: from the start of [main] to the first loop test. *)
Definition main_entry (WDRF rstflr_mirror portb : Z) : machine :=
  mkMachine (if was_wdt_reset WDRF rstflr_mirror then AtFor1 0 else AtLoop)
            (loop_init portb) (mkDiag 0 0 0).

(** One step of [main] after entry. *)
Definition main_step (i : input) (m : machine) : machine :=
  match mpc m with
  | AtLoop => mkMachine AtLoop (loop_iter i (mvars m)) (mdiag m)
  | _ => blink_step m
  end.

Fixpoint main_run (ins : list input) (m : machine) : machine :=
  match ins with
  | [] => m
  | i :: rest => main_run rest (main_step i m)
  end.

(** Length of one period of the diagnostic loop, in steps and in
    microseconds of delay. *)
Definition BLINK_STEPS : Z := 20000 + 1 + 5000 + 1.
Definition BLINK_PERIOD_US : Z := 20000 * 100 + 5000 * 100.

(** [wdt_enable(WDTO_60MS)] at line 51: the watchdog period, in
    microseconds. *)
Definition WDT_TIMEOUT_US : Z := 60000.

(** The diagnostic loop [j] steps into its period number [k]: in the first
    [for] with the fan off (in period 0, as it was at entry: [fan0]), or in
    the second with the fan on; [delay_us] tells how long it has been
    running; one re-arm per 100 microseconds of delay, the latest never
    more than 100 microseconds old. *)
Definition blinking (fan0 : bool) (k j : Z) (m : machine) : Prop :=
  ((0 <= j <= 20000 /\ mpc m = AtFor1 j /\
    fan_is_on (mvars m) = (if k =? 0 then fan0 else false) /\
    delay_us (mdiag m) = BLINK_PERIOD_US * k + 100 * j) \/
   (20000 < j < BLINK_STEPS /\ mpc m = AtFor2 (j - 20001) /\
    fan_is_on (mvars m) = true /\
    delay_us (mdiag m) = BLINK_PERIOD_US * k + 2000000 + 100 * (j - 20001))) /\
  rearms (mdiag m) * 100 = delay_us (mdiag m) /\
  0 <= delay_us (mdiag m) - rearm_at_us (mdiag m) <= 100.

(** ** Vocabulary of the statements *)

(** The successor in the cycle NONE, ON, OFF, NONE. *)
Definition next_override (o : Z) : Z :=
  if o =? FAN_OVERRIDE_NONE then FAN_OVERRIDE_ON
  else if o =? FAN_OVERRIDE_ON then FAN_OVERRIDE_OFF
  else FAN_OVERRIDE_NONE.

(** A press edge is seen by the poll of line 155. *)
Definition press_edge (i : input) (s : vars) : bool :=
  BTN_ISPRESSED (PINB_155 i) && negb (truthy (btnIsPressed s)).

(** A release is seen by the poll of line 176. *)
Definition release_edge (i : input) (s : vars) : bool :=
  negb (press_edge i s) &&
  (negb (BTN_ISPRESSED (PINB_176 i)) && truthy (btnIsPressed s)).

(** The button reads pressed, respectively released, at both polls. *)
Definition held (i : input) : bool :=
  BTN_ISPRESSED (PINB_155 i) && BTN_ISPRESSED (PINB_176 i).
Definition untouched (i : input) : bool :=
  negb (BTN_ISPRESSED (PINB_155 i)) && negb (BTN_ISPRESSED (PINB_176 i)).

(** Number of watchdog ticks consumed by a run. *)
Fixpoint ticks (ins : list input) : Z :=
  match ins with
  | [] => 0
  | i :: rest => (if wdt_timedout i then 1 else 0) + ticks rest
  end.

(** While an override is engaged the port shows the forced value. *)
Definition override_forces (s : vars) : Prop :=
  fanOverride s = FAN_OVERRIDE_NONE \/
  (fanOverride s = FAN_OVERRIDE_ON /\ fan_is_on s = true) \/
  (fanOverride s = FAN_OVERRIDE_OFF /\ fan_is_on s = false).

(** The automatic mode with [hot] clear and the button up, [lastHotTime]
    being [a] ticks old, [a] no more than [FAN_COOL_TIME]. *)
Definition cooling (a : Z) (s : vars) : Prop :=
  hot s = 0 /\ btnIsPressed s = 0 /\ fanOverride s = FAN_OVERRIDE_NONE /\
  0 <= a <= FAN_COOL_TIME /\ age (now s) (lastHotTime s) = a.

(** Between two iterations the latest sample is less than
    [TEMP_MEASURE_INTERVAL] ticks old, and while [hot] is set
    [lastHotTime] is the time of that sample. *)
Definition sampled (s : vars) : Prop :=
  age (now s) (lastMeasureTemp s) < TEMP_MEASURE_INTERVAL /\
  (hot s <> 0 -> lastHotTime s = lastMeasureTemp s).

(** The variables after [d] more watchdog ticks have been consumed at
    line 115. *)
Definition ticks_later (d : nat) (s : vars) : vars :=
  Nat.iter d (tick_step true) s.

(** An input that lets a tick through with the button up; one that lets
    it through with the button down. *)
Definition tick_in (adc : Z) : input := mkInput true adc 2 2.
Definition press_in (adc : Z) : input := mkInput true adc 0 0.

(** ** Start-up hook and registers outside the loop variables *)

(** What [get_rstflr] works on: the reset flag register, its mirror in
    [.noinit], and the watchdog period once the watchdog is enabled. *)
Record hw : Set := mkHw {
  RSTFLR : Z;
  rstflr_mirror : Z;
  wdt_period_us : option Z
}.

(** Lines 45-52: [rstflr_mirror = RSTFLR; RSTFLR = 0;
    wdt_enable(WDTO_60MS);]. *)
Definition get_rstflr (h : hw) : hw :=
  mkHw 0 (RSTFLR h) (Some WDT_TIMEOUT_US).

(** [get_rstflr] runs in [.init3], then [main] reads the mirror at
    line 80. *)
Definition startup (WDRF : Z) (h : hw) (portb : Z) : machine :=
  main_entry WDRF (rstflr_mirror (get_rstflr h)) portb.

(** Bit numbers of the pull-up register, named after the pins: "PB1 =
    Switch in", "PB2 = Temp sense ADC" (main.c lines 39-40). *)
Definition PUEB1 : Z := 1.
Definition PUEB2 : Z := 2.

(** Line 59: [PUEB |= _BV(PUEB1)]. *)
Definition setup_PUEB (pueb : Z) : Z := u8 (Z.lor pueb (_BV PUEB1)).

(** Line 121: [PUEB |= _BV(PUEB2)]. *)
Definition pullup_enable (pueb : Z) : Z := u8 (Z.lor pueb (_BV PUEB2)).

(** Line 142: [PUEB &= ~_BV(PUEB2)]. *)
Definition pullup_disable (pueb : Z) : Z :=
  u8 (Z.land pueb (Z.lnot (_BV PUEB2))).

(** The test of line 118 in the iteration fed with [i]. *)
Definition sample_due (i : input) (s : vars) : bool :=
  age (now (tick_step (wdt_timedout i) s))
      (lastMeasureTemp (tick_step (wdt_timedout i) s))
  >=? TEMP_MEASURE_INTERVAL.

(** The pull-up register along a run of the loop: written at lines 121
    and 142 in the iterations that take a sample, left alone in the
    others. *)
Fixpoint loop_run_PUEB (ins : list input) (s : vars) (pueb : Z) : Z :=
  match ins with
  | [] => pueb
  | i :: rest =>
      loop_run_PUEB rest (loop_iter i s)
        (if sample_due i s then pullup_disable (pullup_enable pueb) else pueb)
  end.

(** Number of samples taken along a run. *)
Fixpoint samples (ins : list input) (s : vars) : Z :=
  match ins with
  | [] => 0
  | i :: rest =>
      (if sample_due i s then 1 else 0) + samples rest (loop_iter i s)
  end.

(** The variables the sampler works on. *)
Definition thermal (s : vars) : Z * Z * Z :=
  (now s, lastMeasureTemp s, hot s).

(** What the sampler sees of an input. *)
Definition thermal_input (i : input) : bool * Z :=
  (wdt_timedout i, ADCL i).

(** Every variable holds a value of its C type, the two flags 0 or 1. *)
Definition is_u8 (z : Z) : Prop := 0 <= z < 256.
Definition vars_in_range (s : vars) : Prop :=
  is_u8 (now s) /\ is_u8 (lastMeasureTemp s) /\ is_u8 (lastHotTime s) /\
  (hot s = 0 \/ hot s = 1) /\ (btnIsPressed s = 0 \/ btnIsPressed s = 1) /\
  (fanOverride s = FAN_OVERRIDE_NONE \/ fanOverride s = FAN_OVERRIDE_ON \/
   fanOverride s = FAN_OVERRIDE_OFF) /\
  is_u8 (PORTB s).

(** The fan output the variables call for: the forced value under an
    override, the test of line 181 in automatic mode. *)
Definition fan_law (s : vars) : bool :=
  if fanOverride s =? FAN_OVERRIDE_NONE
  then truthy (hot s) || (age (now s) (lastHotTime s) <? FAN_COOL_TIME)
  else fanOverride s =? FAN_OVERRIDE_ON.

(** [n] ticks after loop entry: [now] is [n] modulo 256 and the latest
    sample was taken at the last multiple of [TEMP_MEASURE_INTERVAL]. *)
Definition on_schedule (n : Z) (s : vars) : Prop :=
  0 <= n /\ now s = u8 n /\
  lastMeasureTemp s = u8 (TEMP_MEASURE_INTERVAL * (n / TEMP_MEASURE_INTERVAL)).

(** * Properties *)

(** ** Bits of the fan port *)

Lemma testbit0_u8 (z : Z) : Z.testbit (u8 z) 0 = Z.testbit z 0.
Proof.
  unfold u8. change 256 with (2 ^ 8).
  apply Z.mod_pow2_bits_low. lia.
Qed.

Lemma fan_is_on_FAN_ON (s : vars) : fan_is_on (FAN_ON s) = true.
Proof.
  unfold fan_is_on, FAN_ON, PORTB0, _BV; simpl PORTB.
  rewrite testbit0_u8, Z.lor_spec. apply orb_true_r.
Qed.

Lemma fan_is_on_FAN_OFF (s : vars) : fan_is_on (FAN_OFF s) = false.
Proof.
  unfold fan_is_on, FAN_OFF, PORTB0, _BV; simpl PORTB.
  rewrite testbit0_u8, Z.land_spec. apply andb_false_r.
Qed.

Lemma truthy_true (z : Z) : truthy z = true <-> z <> 0.
Proof.
  unfold truthy. destruct (Z.eqb_spec z 0); simpl; split; congruence.
Qed.

Lemma truthy_false (z : Z) : truthy z = false <-> z = 0.
Proof.
  unfold truthy. destruct (Z.eqb_spec z 0); simpl; split; congruence.
Qed.

(** Rewinding a time stamp by [d] makes its age read [d]. *)
Lemma age_rewound (t d : Z) : age t (u8 (t - d)) = u8 d.
Proof.
  unfold age, u8. rewrite Zminus_mod_idemp_r. f_equal. lia.
Qed.

Lemma age_range (t last : Z) : 0 <= age t last < 256.
Proof. unfold age, u8. apply Z.mod_pos_bound. lia. Qed.

(** ** The automatic decision (lines 179-188) *)

(** C1.  In an iteration that reaches line 179 with [fanOverride] equal to
    NONE, the fan is switched on when [hot] is set or the age of
    [lastHotTime] is below [FAN_COOL_TIME], and [lastHotTime] is kept;
    otherwise the fan is switched off and [lastHotTime] becomes
    [now - FAN_COOL_TIME] modulo 256, whose age is exactly
    [FAN_COOL_TIME]. *)
Theorem decide_auto (i : input) (s : vars) :
  let s1 := before_decide i s in
  let s2 := loop_iter i s in
  fanOverride s1 = FAN_OVERRIDE_NONE ->
  (hot s1 <> 0 \/ age (now s1) (lastHotTime s1) < FAN_COOL_TIME ->
     fan_is_on s2 = true /\ lastHotTime s2 = lastHotTime s1) /\
  (hot s1 = 0 /\ FAN_COOL_TIME <= age (now s1) (lastHotTime s1) ->
     fan_is_on s2 = false /\
     lastHotTime s2 = u8 (now s1 - FAN_COOL_TIME) /\
     age (now s2) (lastHotTime s2) = FAN_COOL_TIME).
Proof.
  intros s1 s2 Hnone. subst s2. unfold loop_iter. fold s1.
  unfold decide_step. rewrite Hnone, Z.eqb_refl.
  split.
  - intros Hon.
    assert (Hc : truthy (hot s1) || (age (now s1) (lastHotTime s1) <? FAN_COOL_TIME) = true).
    { apply orb_true_iff. destruct Hon as [H | H].
      - left. now apply truthy_true.
      - right. now apply Z.ltb_lt. }
    rewrite Hc. split; [apply fan_is_on_FAN_ON | reflexivity].
  - intros [Hcold Hold].
    assert (Hc : truthy (hot s1) || (age (now s1) (lastHotTime s1) <? FAN_COOL_TIME) = false).
    { apply orb_false_iff. split.
      - now apply truthy_false.
      - apply Z.ltb_ge. exact Hold. }
    rewrite Hc. cbn [lastHotTime now set_lastHotTime FAN_OFF set_PORTB].
    split; [|split].
    + apply (fan_is_on_FAN_OFF s1).
    + reflexivity.
    + apply age_rewound.
Qed.

Lemma decide_auto_witness :
  fanOverride (before_decide (tick_in 30) (loop_init 0)) = FAN_OVERRIDE_NONE /\
  fan_is_on (loop_iter (tick_in 30) (loop_init 0)) = true.
Proof.
  split.
  - reflexivity.
  - apply (decide_auto (tick_in 30) (loop_init 0)).
    + reflexivity.
    + right. vm_compute. reflexivity.
Defined.

(** ** Which step writes which variable *)

Ltac split_ifs :=
  repeat match goal with
         | |- context [if ?c then _ else _] => destruct c eqn:?
         end.

Ltac frame_of step := intros; unfold step; split_ifs; reflexivity.

Lemma hot_tick_step b s : hot (tick_step b s) = hot s.
Proof. frame_of tick_step. Qed.

Lemma hot_cycle_override s : hot (cycle_override s) = hot s.
Proof. intros; unfold cycle_override; cbv zeta; split_ifs; reflexivity. Qed.

Lemma hot_input_step a b s : hot (input_step a b s) = hot s.
Proof.
  unfold input_step; split_ifs; try reflexivity.
  now rewrite hot_cycle_override.
Qed.

Lemma hot_decide_step s : hot (decide_step s) = hot s.
Proof. frame_of decide_step. Qed.

Lemma hot_loop_iter i s :
  hot (loop_iter i s) = hot (sample_step (ADCL i) (tick_step (wdt_timedout i) s)).
Proof.
  unfold loop_iter, before_decide, before_input.
  now rewrite hot_decide_step, hot_input_step.
Qed.

Lemma fanOverride_tick_step b s : fanOverride (tick_step b s) = fanOverride s.
Proof. frame_of tick_step. Qed.

Lemma fanOverride_sample_step v s : fanOverride (sample_step v s) = fanOverride s.
Proof. intros; unfold sample_step, hysteresis; cbv zeta; split_ifs; reflexivity. Qed.

Lemma fanOverride_decide_step s : fanOverride (decide_step s) = fanOverride s.
Proof. frame_of decide_step. Qed.

Lemma fanOverride_cycle_override s :
  fanOverride (cycle_override s) = next_override (fanOverride s).
Proof.
  unfold cycle_override, next_override; cbv zeta; split_ifs; reflexivity.
Qed.

Lemma btnIsPressed_tick_step b s : btnIsPressed (tick_step b s) = btnIsPressed s.
Proof. frame_of tick_step. Qed.

Lemma btnIsPressed_sample_step v s : btnIsPressed (sample_step v s) = btnIsPressed s.
Proof. intros; unfold sample_step, hysteresis; cbv zeta; split_ifs; reflexivity. Qed.

Lemma btnIsPressed_decide_step s : btnIsPressed (decide_step s) = btnIsPressed s.
Proof. frame_of decide_step. Qed.

Lemma btnIsPressed_cycle_override s : btnIsPressed (cycle_override s) = btnIsPressed s.
Proof. intros; unfold cycle_override; cbv zeta; split_ifs; reflexivity. Qed.

Lemma PORTB_tick_step b s : PORTB (tick_step b s) = PORTB s.
Proof. frame_of tick_step. Qed.

Lemma PORTB_sample_step v s : PORTB (sample_step v s) = PORTB s.
Proof. intros; unfold sample_step, hysteresis; cbv zeta; split_ifs; reflexivity. Qed.

Lemma loop_run_app ins1 ins2 s :
  loop_run (ins1 ++ ins2) s = loop_run ins2 (loop_run ins1 s).
Proof.
  revert s. induction ins1 as [| i ins1 IH]; intros s; simpl.
  - reflexivity.
  - apply IH.
Qed.

(** ** The sampler (lines 118-152) *)

(** C3.  When a sample is due, a reading above [COOL_VAL] clears [hot], a
    reading below [HOT_VAL] sets it, and a reading from [HOT_VAL] to
    [COOL_VAL], both included, leaves it as it was; then [lastHotTime]
    becomes [now] if the resulting [hot] is set and is left alone if not. *)
Theorem sampler_hysteresis (val : Z) (s : vars) :
  TEMP_MEASURE_INTERVAL <= age (now s) (lastMeasureTemp s) ->
  let s' := sample_step val s in
  (COOL_VAL < val -> hot s' = 0) /\
  (val < HOT_VAL -> hot s' = 1) /\
  (HOT_VAL <= val <= COOL_VAL -> hot s' = hot s) /\
  (hot s' <> 0 -> lastHotTime s' = now s) /\
  (hot s' = 0 -> lastHotTime s' = lastHotTime s).
Proof.
  intros Hdue s'. subst s'. unfold sample_step.
  assert (Hc : (age (now s) (lastMeasureTemp s) >=? TEMP_MEASURE_INTERVAL) = true)
    by (apply Z.geb_le; exact Hdue).
  rewrite Hc. unfold hysteresis, COOL_VAL, HOT_VAL. cbv zeta.
  destruct (Z.gtb_spec val 27) as [Hgt | Hle].
  - cbn. repeat split; intros; try lia; try reflexivity.
  - destruct (Z.ltb_spec val 23) as [Hlt | Hge].
    + cbn. repeat split; intros; try lia; try reflexivity.
    + cbn [hot set_lastMeasureTemp].
      destruct (truthy (hot s)) eqn:Ht; cbn;
        repeat split; intros; try lia; try reflexivity.
      * apply truthy_true in Ht. contradiction.
      * apply truthy_false in Ht. contradiction.
Qed.

Lemma sampler_hysteresis_witness :
  TEMP_MEASURE_INTERVAL <= age (now (mkVars 32 0 162 0 0 0 0)) 0 /\
  hot (sample_step 20 (mkVars 32 0 162 0 0 0 0)) = 1.
Proof.
  split.
  - vm_compute. discriminate.
  - apply (sampler_hysteresis 20 (mkVars 32 0 162 0 0 0 0)).
    + vm_compute. discriminate.
    + reflexivity.
Defined.

(** ** Modular time stamps (lines 115, 118, 181) *)

Lemma now_ticks_later (d : nat) (s : vars) :
  u8 (now (ticks_later d s)) = u8 (now s + Z.of_nat d).
Proof.
  unfold ticks_later. induction d as [| d IH].
  - simpl. f_equal. lia.
  - rewrite Nat.iter_succ. unfold tick_step at 1. cbn [now set_now].
    unfold u8 in *. rewrite Zmod_mod, <- Zplus_mod_idemp_l, IH.
    rewrite Zplus_mod_idemp_l. f_equal. lia.
Qed.

(** C5.  A time stamp taken from [now] and read back after [d] further
    ticks has age [d] modulo 256, whatever the 8-bit value of [now] was and
    however often it wrapped; the age is [d] itself while [d < 256] and is
    never outside [0, 255]; four ticks take [now] from 254 to 2, and
    [now = 2] against a stamp of [254] reads [4]. *)
Theorem age_counts_ticks (d : nat) (s : vars) :
  age (now (ticks_later d s)) (now s) = Z.of_nat d mod 256 /\
  (Z.of_nat d < 256 -> age (now (ticks_later d s)) (now s) = Z.of_nat d) /\
  (forall t last, 0 <= age t last < 256) /\
  now (ticks_later 4 (set_now 254 s)) = 2 /\
  age 2 254 = 4.
Proof.
  assert (H : age (now (ticks_later d s)) (now s) = Z.of_nat d mod 256).
  { unfold age. generalize (now_ticks_later d s). unfold u8. intros E.
    rewrite <- Zminus_mod_idemp_l, E, Zminus_mod_idemp_l. f_equal. lia. }
  split; [exact H | split; [| split; [| split]]].
  - intros Hd. rewrite H. apply Z.mod_small. lia.
  - apply age_range.
  - reflexivity.
  - reflexivity.
Qed.

(** ** Hysteresis over a run *)

Lemma hot_sample_step_warm (v : Z) (s : vars) :
  v <= COOL_VAL -> hot s <> 0 -> hot (sample_step v s) <> 0.
Proof.
  unfold COOL_VAL. intros Hv Hs. unfold sample_step, hysteresis, COOL_VAL, HOT_VAL.
  cbv zeta. destruct (Z.gtb_spec v 27); [lia |].
  split_ifs; cbn; try assumption; discriminate.
Qed.

Lemma hot_sample_step_band (v : Z) (s : vars) :
  HOT_VAL <= v <= COOL_VAL -> hot (sample_step v s) = hot s.
Proof.
  unfold COOL_VAL, HOT_VAL. intros Hv. unfold sample_step, hysteresis, COOL_VAL, HOT_VAL.
  cbv zeta. destruct (Z.gtb_spec v 27); [lia |].
  destruct (Z.ltb_spec v 23); [lia |].
  split_ifs; reflexivity.
Qed.

(** C8.  Over any number of loop iterations, [hot] once set stays set as
    long as no reading exceeds [COOL_VAL], and readings that all lie from
    [HOT_VAL] to [COOL_VAL] leave [hot] exactly as it was, set or clear. *)
Theorem hot_is_sticky (ins : list input) (s : vars) :
  (Forall (fun i => ADCL i <= COOL_VAL) ins ->
   hot s <> 0 -> hot (loop_run ins s) <> 0) /\
  (Forall (fun i => HOT_VAL <= ADCL i <= COOL_VAL) ins ->
   hot (loop_run ins s) = hot s).
Proof.
  split.
  - intros Hall. revert s. induction Hall as [| i ins Hi _ IH]; intros s Hs.
    + exact Hs.
    + simpl. apply IH. rewrite hot_loop_iter.
      apply hot_sample_step_warm; [exact Hi |].
      now rewrite hot_tick_step.
  - intros Hall. revert s. induction Hall as [| i ins Hi _ IH]; intros s.
    + reflexivity.
    + simpl. rewrite IH, hot_loop_iter, hot_sample_step_band by exact Hi.
      apply hot_tick_step.
Qed.

Lemma hot_is_sticky_witness :
  hot (mkVars 32 32 32 1 0 0 1) <> 0 /\
  hot (loop_run (repeat (tick_in 25) 40) (mkVars 32 32 32 1 0 0 1)) <> 0.
Proof.
  split.
  - discriminate.
  - apply (hot_is_sticky (repeat (tick_in 25) 40) (mkVars 32 32 32 1 0 0 1)).
    + apply Forall_forall. intros i Hi. apply repeat_spec in Hi. subst i.
      unfold COOL_VAL. simpl. lia.
    + discriminate.
Defined.

(** ** The button poll and the override (lines 155-177) *)

Lemma btnIsPressed_before_input i s :
  btnIsPressed (before_input i s) = btnIsPressed s.
Proof.
  unfold before_input.
  now rewrite btnIsPressed_sample_step, btnIsPressed_tick_step.
Qed.

Lemma fanOverride_before_input i s :
  fanOverride (before_input i s) = fanOverride s.
Proof.
  unfold before_input.
  now rewrite fanOverride_sample_step, fanOverride_tick_step.
Qed.

Lemma PORTB_before_input i s : PORTB (before_input i s) = PORTB s.
Proof.
  unfold before_input. now rewrite PORTB_sample_step, PORTB_tick_step.
Qed.

Lemma press_edge_before_input i s :
  press_edge i (before_input i s) = press_edge i s.
Proof. unfold press_edge. now rewrite btnIsPressed_before_input. Qed.

Lemma fanOverride_input_step a b s :
  fanOverride (input_step a b s) =
  if BTN_ISPRESSED a && negb (truthy (btnIsPressed s))
  then next_override (fanOverride s) else fanOverride s.
Proof.
  unfold input_step.
  destruct (BTN_ISPRESSED a && negb (truthy (btnIsPressed s))).
  - now rewrite fanOverride_cycle_override.
  - split_ifs; reflexivity.
Qed.

Lemma fanOverride_loop_iter i s :
  fanOverride (loop_iter i s) =
  if press_edge i s then next_override (fanOverride s) else fanOverride s.
Proof.
  unfold loop_iter, before_decide.
  rewrite fanOverride_decide_step, fanOverride_input_step.
  fold (press_edge i (before_input i s)).
  now rewrite press_edge_before_input, fanOverride_before_input.
Qed.

Lemma override_forces_cycle_override s :
  override_forces s -> override_forces (cycle_override s).
Proof.
  intros H. unfold cycle_override. cbv zeta.
  destruct (Z.eqb_spec (fanOverride s) FAN_OVERRIDE_NONE) as [E0 | N0].
  - right; left. split; [reflexivity | apply fan_is_on_FAN_ON].
  - destruct (Z.eqb_spec (fanOverride s) FAN_OVERRIDE_ON) as [E1 | N1].
    + right; right. split; [reflexivity | apply fan_is_on_FAN_OFF].
    + left. split_ifs; reflexivity.
Qed.

Lemma override_forces_loop_iter i s :
  override_forces s -> override_forces (loop_iter i s).
Proof.
  intros H.
  assert (H0 : override_forces (before_input i s)).
  { unfold override_forces, fan_is_on in *.
    now rewrite fanOverride_before_input, PORTB_before_input. }
  assert (H1 : override_forces (before_decide i s)).
  { unfold before_decide, input_step. split_ifs.
    - apply override_forces_cycle_override. exact H0.
    - exact H0.
    - exact H0. }
  unfold loop_iter, decide_step.
  destruct (Z.eqb_spec (fanOverride (before_decide i s)) FAN_OVERRIDE_NONE) as [E | N].
  - left. split_ifs; exact E.
  - exact H1.
Qed.

Lemma override_forces_loop_run ins s :
  override_forces s -> override_forces (loop_run ins s).
Proof.
  revert s. induction ins as [| i ins IH]; intros s H; simpl.
  - exact H.
  - apply IH, override_forces_loop_iter, H.
Qed.

(** C4.  In every state the control loop reaches from its entry,
    [fanOverride] is NONE, ON or OFF; an iteration that sees a press edge
    moves it one step along NONE, ON, OFF, NONE and an iteration that sees
    none leaves it alone; and whenever it is ON the fan pin is high,
    whenever it is OFF the fan pin is low, whatever [hot] and the age of
    [lastHotTime] are. *)
Theorem override_cycle (portb : Z) (ins : list input) :
  let s := loop_run ins (loop_init portb) in
  (fanOverride s = FAN_OVERRIDE_NONE \/
   fanOverride s = FAN_OVERRIDE_ON \/
   fanOverride s = FAN_OVERRIDE_OFF) /\
  (forall i, press_edge i s = true ->
     fanOverride (loop_iter i s) = next_override (fanOverride s)) /\
  (forall i, press_edge i s = false ->
     fanOverride (loop_iter i s) = fanOverride s) /\
  (next_override FAN_OVERRIDE_NONE = FAN_OVERRIDE_ON /\
   next_override FAN_OVERRIDE_ON = FAN_OVERRIDE_OFF /\
   next_override FAN_OVERRIDE_OFF = FAN_OVERRIDE_NONE) /\
  (fanOverride s = FAN_OVERRIDE_ON -> fan_is_on s = true) /\
  (fanOverride s = FAN_OVERRIDE_OFF -> fan_is_on s = false).
Proof.
  intros s.
  assert (H : override_forces s).
  { apply override_forces_loop_run. left. reflexivity. }
  split; [| split; [| split; [| split; [| split]]]].
  - destruct H as [H | [[H _] | [H _]]]; auto.
  - intros i Hi. now rewrite fanOverride_loop_iter, Hi.
  - intros i Hi. now rewrite fanOverride_loop_iter, Hi.
  - repeat split.
  - intros E. destruct H as [H | [[_ H] | [H _]]]; [| exact H |];
      rewrite E in H; discriminate.
  - intros E. destruct H as [H | [[H _] | [_ H]]]; [| | exact H];
      rewrite E in H; discriminate.
Qed.

(** An override engaged by one press and left alone for forty ticks of
    cold readings, then a second press: ON with the pin high, then OFF
    with the pin low. *)
Lemma override_cycle_witness :
  let s := loop_run (press_in 200 :: repeat (tick_in 200) 40) (loop_init 0) in
  (fanOverride s = FAN_OVERRIDE_ON /\ fan_is_on s = true) /\
  (fanOverride (loop_iter (press_in 200) s) = FAN_OVERRIDE_OFF).
Proof.
  intros s.
  pose proof (override_cycle 0 (press_in 200 :: repeat (tick_in 200) 40)) as H.
  cbv zeta in H. fold s in H.
  destruct H as (_ & Hstep & _ & _ & Hon & _).
  assert (E : fanOverride s = FAN_OVERRIDE_ON) by (vm_compute; reflexivity).
  split; [split|].
  - exact E.
  - apply Hon, E.
  - rewrite (Hstep (press_in 200)) by (vm_compute; reflexivity).
    rewrite E. reflexivity.
Defined.

Lemma held_inv i :
  held i = true ->
  BTN_ISPRESSED (PINB_155 i) = true /\ BTN_ISPRESSED (PINB_176 i) = true.
Proof. unfold held. intros H. now apply andb_true_iff in H. Qed.

Lemma btnIsPressed_loop_iter_held i s :
  held i = true -> btnIsPressed (loop_iter i s) <> 0.
Proof.
  intros Hh. destruct (held_inv i Hh) as [Ha Hb].
  unfold loop_iter, before_decide. rewrite btnIsPressed_decide_step.
  unfold input_step. rewrite Ha, Hb, btnIsPressed_before_input. simpl.
  destruct (truthy (btnIsPressed s)) eqn:Ht; simpl.
  - rewrite btnIsPressed_before_input. now apply truthy_true.
  - rewrite btnIsPressed_cycle_override. discriminate.
Qed.

Lemma fanOverride_loop_run_still_held ins s :
  forallb held ins = true -> btnIsPressed s <> 0 ->
  fanOverride (loop_run ins s) = fanOverride s.
Proof.
  revert s. induction ins as [| i ins IH]; intros s Hall Hs; simpl.
  - reflexivity.
  - simpl in Hall. apply andb_true_iff in Hall. destruct Hall as [Hi Hall].
    rewrite IH; [| exact Hall | now apply btnIsPressed_loop_iter_held].
    rewrite fanOverride_loop_iter. unfold press_edge.
    apply truthy_true in Hs. rewrite Hs. now rewrite andb_false_r.
Qed.

Lemma release_edge_inv (i : input) (s : vars) :
  release_edge i s = true ->
  press_edge i s = false /\
  BTN_ISPRESSED (PINB_176 i) = false /\ btnIsPressed s <> 0.
Proof.
  unfold release_edge. intros H.
  apply andb_true_iff in H. destruct H as [Hp H].
  apply andb_true_iff in H. destruct H as [Hb Ht].
  apply negb_true_iff in Hp, Hb. apply truthy_true in Ht. auto.
Qed.

(** C10.  The release branch (line 177) clears [btnIsPressed] and writes
    nothing else: the other variables and the fan port are as before the
    poll.  And a button found down at every poll of a run, after having
    been up, moves [fanOverride] by exactly one step however long the run
    is. *)
Theorem release_is_frame (i : input) (s : vars) (ins : list input) :
  (release_edge i s = true ->
   let s' := input_step (PINB_155 i) (PINB_176 i) s in
   s' = set_btnIsPressed 0 s /\
   btnIsPressed s' = 0 /\
   fanOverride s' = fanOverride s /\ hot s' = hot s /\
   lastHotTime s' = lastHotTime s /\ lastMeasureTemp s' = lastMeasureTemp s /\
   now s' = now s /\ PORTB s' = PORTB s) /\
  (ins <> [] -> forallb held ins = true -> btnIsPressed s = 0 ->
   fanOverride (loop_run ins s) = next_override (fanOverride s)).
Proof.
  split.
  - intros Hrel s'. destruct (release_edge_inv i s Hrel) as (Hp & Hb & Hs).
    assert (E : s' = set_btnIsPressed 0 s).
    { subst s'. unfold input_step. unfold press_edge in Hp. rewrite Hp.
      apply truthy_true in Hs. rewrite Hs, Hb. reflexivity. }
    rewrite E. repeat split.
  - intros Hne Hall Hs. destruct ins as [| j ins]; [congruence |].
    simpl in Hall |- *. apply andb_true_iff in Hall. destruct Hall as [Hj Hall].
    rewrite fanOverride_loop_run_still_held;
      [| exact Hall | now apply btnIsPressed_loop_iter_held].
    rewrite fanOverride_loop_iter. unfold press_edge.
    destruct (held_inv j Hj) as [Ha _]. rewrite Ha, Hs. reflexivity.
Qed.

(** From the boot state: the button down for fifty iterations engages ON
    once; its release then changes [btnIsPressed] only. *)
Lemma release_is_frame_witness :
  let s := loop_run (repeat (press_in 200) 50) (loop_init 0) in
  fanOverride s = FAN_OVERRIDE_ON /\
  release_edge (tick_in 200) s = true /\
  input_step 2 2 s = set_btnIsPressed 0 s.
Proof.
  intros s. split; [| split].
  - apply (release_is_frame (tick_in 200) (loop_init 0)
             (repeat (press_in 200) 50)).
    + discriminate.
    + vm_compute. reflexivity.
    + reflexivity.
  - vm_compute. reflexivity.
  - apply (release_is_frame (tick_in 200) s []).
    vm_compute. reflexivity.
Defined.

Lemma input_step_back_to_auto (a b : Z) (s : vars) :
  fanOverride s = FAN_OVERRIDE_OFF ->
  BTN_ISPRESSED a && negb (truthy (btnIsPressed s)) = true ->
  hot s = 0 ->
  input_step a b s =
  set_lastHotTime (u8 (now s - FAN_COOL_TIME))
    (set_fanOverride FAN_OVERRIDE_NONE (set_btnIsPressed 1 s)).
Proof.
  intros Hoff Hpress Hcold. unfold input_step. rewrite Hpress.
  unfold cycle_override. cbv zeta.
  cbn [fanOverride set_btnIsPressed hot set_fanOverride now].
  rewrite Hoff, Hcold. reflexivity.
Qed.

Lemma decide_step_expired (s : vars) :
  fanOverride s = FAN_OVERRIDE_NONE ->
  hot s = 0 ->
  age (now s) (lastHotTime s) = FAN_COOL_TIME ->
  decide_step s = set_lastHotTime (u8 (now s - FAN_COOL_TIME)) (FAN_OFF s).
Proof.
  intros Hnone Hcold Hage. unfold decide_step.
  rewrite Hnone, Hcold, Hage. reflexivity.
Qed.

(** C7.  When the poll sees a press edge while [fanOverride] is OFF and
    [hot] is clear, [fanOverride] returns to NONE and [lastHotTime] is
    rewound to [now - FAN_COOL_TIME] modulo 256, so its age reads
    [FAN_COOL_TIME]; the decision of the same iteration then switches the
    fan off. *)
Theorem back_to_auto_rewinds (i : input) (s : vars) :
  let s0 := before_input i s in
  let s1 := before_decide i s in
  let s2 := loop_iter i s in
  fanOverride s0 = FAN_OVERRIDE_OFF ->
  press_edge i s0 = true ->
  hot s0 = 0 ->
  fanOverride s1 = FAN_OVERRIDE_NONE /\
  lastHotTime s1 = u8 (now s0 - FAN_COOL_TIME) /\
  age (now s1) (lastHotTime s1) = FAN_COOL_TIME /\
  fanOverride s2 = FAN_OVERRIDE_NONE /\
  fan_is_on s2 = false.
Proof.
  cbv zeta. unfold loop_iter, before_decide.
  generalize (before_input i s). intros s0 Hoff Hpress Hcold.
  rewrite (input_step_back_to_auto _ _ s0 Hoff Hpress Hcold).
  set (s1 := set_lastHotTime _ _).
  assert (Hage : age (now s1) (lastHotTime s1) = FAN_COOL_TIME)
    by apply age_rewound.
  rewrite (decide_step_expired s1) by (reflexivity || assumption).
  split; [| split; [| split; [| split]]]; try reflexivity.
  - exact Hage.
  - apply (fan_is_on_FAN_OFF s1).
Qed.

Lemma back_to_auto_rewinds_witness :
  let s := mkVars 40 32 8 0 0 FAN_OVERRIDE_OFF 0 in
  fanOverride (before_input (press_in 25) s) = FAN_OVERRIDE_OFF /\
  press_edge (press_in 25) (before_input (press_in 25) s) = true /\
  hot (before_input (press_in 25) s) = 0 /\
  fan_is_on (loop_iter (press_in 25) s) = false.
Proof.
  intros s.
  split; [reflexivity | split; [reflexivity | split; [reflexivity |]]].
  apply (back_to_auto_rewinds (press_in 25) s); reflexivity.
Defined.

(** ** Power-on window (line 72) *)

Ltac mod256 := unfold age, u8 in *; Z.div_mod_to_equations; lia.

Lemma untouched_inv i :
  untouched i = true ->
  BTN_ISPRESSED (PINB_155 i) = false /\ BTN_ISPRESSED (PINB_176 i) = false.
Proof.
  unfold untouched. intros H. apply andb_true_iff in H.
  destruct H as [Ha Hb]. apply negb_true_iff in Ha, Hb. now split.
Qed.

Lemma input_step_untouched a b s :
  BTN_ISPRESSED a = false -> BTN_ISPRESSED b = false -> btnIsPressed s = 0 ->
  input_step a b s = s.
Proof.
  intros Ha Hb Hs. unfold input_step. rewrite Ha, Hb, Hs. reflexivity.
Qed.

Lemma ticks_nonneg ins : 0 <= ticks ins.
Proof.
  induction ins as [| i ins IH]; simpl; [lia |].
  destruct (wdt_timedout i); lia.
Qed.

Lemma sample_step_cold (v : Z) (s : vars) :
  HOT_VAL <= v -> hot s = 0 ->
  let s' := sample_step v s in
  hot s' = 0 /\ lastHotTime s' = lastHotTime s /\ now s' = now s /\
  btnIsPressed s' = btnIsPressed s /\ fanOverride s' = fanOverride s /\
  PORTB s' = PORTB s /\
  (age (now s) (lastMeasureTemp s) < TEMP_MEASURE_INTERVAL -> s' = s).
Proof.
  cbv zeta. unfold HOT_VAL. intros Hv Hs. unfold sample_step.
  destruct (Z.geb_spec (age (now s) (lastMeasureTemp s)) TEMP_MEASURE_INTERVAL)
    as [Hdue | Hnot].
  - unfold hysteresis, COOL_VAL, HOT_VAL. cbv zeta.
    destruct (Z.gtb_spec v 27).
    + cbn. repeat split; try reflexivity. lia.
    + destruct (Z.ltb_spec v 23); [lia |].
      cbn [hot set_lastMeasureTemp]. rewrite Hs. cbn.
      repeat split; try reflexivity; try assumption. lia.
  - repeat split; try reflexivity; assumption.
Qed.

Lemma decide_step_cold (s : vars) :
  fanOverride s = FAN_OVERRIDE_NONE -> hot s = 0 ->
  let s' := decide_step s in
  hot s' = 0 /\ btnIsPressed s' = btnIsPressed s /\
  fanOverride s' = FAN_OVERRIDE_NONE /\ now s' = now s /\
  lastMeasureTemp s' = lastMeasureTemp s /\
  (age (now s) (lastHotTime s) < FAN_COOL_TIME ->
     fan_is_on s' = true /\ lastHotTime s' = lastHotTime s) /\
  (FAN_COOL_TIME <= age (now s) (lastHotTime s) ->
     fan_is_on s' = false /\ age (now s') (lastHotTime s') = FAN_COOL_TIME).
Proof.
  cbv zeta. intros Hnone Hcold. unfold decide_step.
  rewrite Hnone, Hcold. cbn [Z.eqb truthy negb orb FAN_OVERRIDE_NONE].
  destruct (Z.ltb_spec (age (now s) (lastHotTime s)) FAN_COOL_TIME) as [Hlt | Hge].
  - repeat split; try reflexivity; try assumption; try lia.
    apply fan_is_on_FAN_ON.
  - repeat split; try reflexivity; try assumption; try lia.
    + apply (fan_is_on_FAN_OFF s).
    + apply age_rewound.
Qed.

Lemma cooling_loop_iter (a : Z) (i : input) (s : vars) :
  cooling a s -> untouched i = true -> HOT_VAL <= ADCL i ->
  cooling (Z.min FAN_COOL_TIME (a + (if wdt_timedout i then 1 else 0)))
          (loop_iter i s) /\
  fan_is_on (loop_iter i s) =
    (a + (if wdt_timedout i then 1 else 0) <? FAN_COOL_TIME).
Proof.
  intros (Hh & Hb & Hf & Ha & Hage) Hu Hv.
  destruct (untouched_inv i Hu) as [Hpa Hpb].
  set (t := if wdt_timedout i then 1 else 0).
  assert (Ht : t = 0 \/ t = 1) by (subst t; destruct (wdt_timedout i); lia).
  set (s0 := tick_step (wdt_timedout i) s).
  assert (T : hot s0 = 0 /\ btnIsPressed s0 = 0 /\
              fanOverride s0 = FAN_OVERRIDE_NONE /\
              age (now s0) (lastHotTime s0) = a + t).
  { subst s0 t. unfold tick_step. destruct (wdt_timedout i);
      cbn [hot btnIsPressed fanOverride now lastHotTime set_now];
      repeat split; try assumption.
    - unfold FAN_COOL_TIME in Ha. clear - Ha Hage. mod256.
    - lia. }
  destruct T as (Th & Tb & Tf & Tage).
  pose proof (sample_step_cold (ADCL i) s0 Hv Th) as S. cbv zeta in S.
  set (s1 := sample_step (ADCL i) s0) in *.
  destruct S as (Sh & Sl & Sn & Sb & Sf & _ & _).
  assert (I : input_step (PINB_155 i) (PINB_176 i) s1 = s1)
    by (apply input_step_untouched; congruence).
  assert (Sf' : fanOverride s1 = FAN_OVERRIDE_NONE) by congruence.
  assert (Sage : age (now s1) (lastHotTime s1) = a + t) by congruence.
  pose proof (decide_step_cold s1 Sf' Sh) as D. cbv zeta in D.
  replace (loop_iter i s) with (decide_step s1)
    by (unfold loop_iter, before_decide, before_input; fold s0; fold s1;
        now rewrite I).
  destruct D as (Dh & Db & Df & Dn & _ & Don & Doff).
  rewrite Sage in Don, Doff. unfold cooling. rewrite Dh, Db, Df, Sb, Tb.
  destruct (Z.ltb_spec (a + t) FAN_COOL_TIME) as [Hlt | Hge].
  - destruct (Don Hlt) as [Ef El]. rewrite Dn, El, Sage, Ef.
    repeat split; lia.
  - destruct (Doff Hge) as [Ef Ea]. rewrite Ea, Ef.
    repeat split; unfold FAN_COOL_TIME in *; lia.
Qed.

Lemma cooling_loop_run (ins : list input) (a : Z) (s : vars) :
  cooling a s -> forallb untouched ins = true ->
  Forall (fun i => HOT_VAL <= ADCL i) ins ->
  cooling (Z.min FAN_COOL_TIME (a + ticks ins)) (loop_run ins s) /\
  (ins <> [] -> fan_is_on (loop_run ins s) = (a + ticks ins <? FAN_COOL_TIME)).
Proof.
  revert a s. induction ins as [| i ins IH]; intros a s Hs Hu Hv.
  - simpl. rewrite Z.add_0_r. split; [| congruence].
    destruct Hs as (? & ? & ? & ? & ?). rewrite Z.min_r by lia.
    repeat split; assumption || lia.
  - simpl in Hu. apply andb_true_iff in Hu. destruct Hu as [Hi Hu].
    inversion Hv as [| ? ? Hvi Hvs]; subst.
    destruct (cooling_loop_iter a i s Hs Hi Hvi) as [Hs' Hfan].
    destruct (IH _ _ Hs' Hu Hvs) as [Hinv Hrest].
    pose proof (ticks_nonneg ins) as Hpos.
    cbn [loop_run ticks].
    set (t := if wdt_timedout i then 1 else 0) in *.
    replace (Z.min FAN_COOL_TIME (a + (t + ticks ins)))
      with (Z.min FAN_COOL_TIME (Z.min FAN_COOL_TIME (a + t) + ticks ins))
      by lia.
    split; [exact Hinv |]. intros _.
    destruct ins as [| j ins].
    + simpl. rewrite Z.add_0_r. exact Hfan.
    + rewrite Hrest by discriminate.
      destruct (Z.ltb_spec (a + (t + ticks (j :: ins))) FAN_COOL_TIME);
        [apply Z.ltb_lt | apply Z.ltb_ge]; lia.
Qed.

Lemma now_loop_iter (i : input) (s : vars) :
  now (loop_iter i s) = now (tick_step (wdt_timedout i) s).
Proof.
  unfold loop_iter, before_decide, before_input, decide_step, input_step,
    cycle_override, sample_step, hysteresis.
  cbv zeta. split_ifs; reflexivity.
Qed.

Lemma now_loop_run (ins : list input) (s : vars) :
  0 <= now s < 256 -> now (loop_run ins s) = u8 (now s + ticks ins).
Proof.
  revert s. induction ins as [| i ins IH]; intros s Hs.
  - simpl. rewrite Z.add_0_r. unfold u8. symmetry. now apply Z.mod_small.
  - cbn [loop_run ticks].
    assert (Hn : now (loop_iter i s) =
                 u8 (now s + (if wdt_timedout i then 1 else 0))).
    { rewrite now_loop_iter. unfold tick_step.
      destruct (wdt_timedout i); cbn [now set_now]; [reflexivity |].
      rewrite Z.add_0_r. unfold u8. symmetry. now apply Z.mod_small. }
    rewrite IH.
    + rewrite Hn. unfold u8. rewrite Zplus_mod_idemp_l. f_equal. lia.
    + rewrite Hn. unfold u8. apply Z.mod_pos_bound. lia.
Qed.

Lemma cooling_loop_init (portb : Z) : cooling 94 (loop_init portb).
Proof.
  unfold cooling, loop_init, FAN_COOL_TIME. cbn. repeat split; lia.
Qed.

(** C6.  From the boot state, with the button up and no reading below
    [HOT_VAL], the fan is on at the end of every iteration whose tick count
    is below 31 and off at the end of every later one: on for [now] from 0
    to 30, off when [now] reaches 31, and not switched on again by cold
    samples. *)
Theorem power_on_window (portb : Z) (ins : list input) :
  ins <> [] ->
  forallb untouched ins = true ->
  Forall (fun i => HOT_VAL <= ADCL i) ins ->
  let s := loop_run ins (loop_init portb) in
  now s = u8 (ticks ins) /\ hot s = 0 /\
  fan_is_on s = (ticks ins <? 31) /\
  (ticks ins <= 30 -> now s = ticks ins /\ fan_is_on s = true) /\
  (ticks ins = 31 -> now s = 31 /\ fan_is_on s = false).
Proof.
  intros Hne Hu Hv s.
  destruct (cooling_loop_run ins 94 (loop_init portb)
              (cooling_loop_init portb) Hu Hv) as [Hinv Hfan].
  specialize (Hfan Hne). fold s in Hinv, Hfan.
  assert (Hn : now s = u8 (ticks ins))
    by (subst s; rewrite now_loop_run; [reflexivity | cbn; lia]).
  assert (Hfan' : fan_is_on s = (ticks ins <? 31)).
  { rewrite Hfan. unfold FAN_COOL_TIME.
    destruct (Z.ltb_spec (ticks ins) 31); [apply Z.ltb_lt | apply Z.ltb_ge]; lia. }
  destruct Hinv as (Hh & _).
  pose proof (ticks_nonneg ins) as H0.
  split; [exact Hn | split; [exact Hh | split; [exact Hfan' | split]]].
  - intros Hle. split.
    + rewrite Hn. unfold u8. apply Z.mod_small. lia.
    + rewrite Hfan'. apply Z.ltb_lt. lia.
  - intros E. rewrite Hn, Hfan', E. split; reflexivity.
Qed.

Lemma power_on_window_witness :
  let ins := repeat (tick_in 200) 31 in
  ins <> [] /\ forallb untouched ins = true /\
  ticks ins = 31 /\
  fan_is_on (loop_run ins (loop_init 0)) = false.
Proof.
  intros ins.
  split; [discriminate | split; [reflexivity | split; [reflexivity |]]].
  apply (power_on_window 0 ins).
  - discriminate.
  - reflexivity.
  - apply Forall_forall. intros i Hi. apply repeat_spec in Hi. subst i.
    unfold HOT_VAL. simpl. lia.
  - reflexivity.
Defined.

(** ** The diagnostic loop (lines 80-104) *)

Lemma main_run_loop ins s d :
  main_run ins (mkMachine AtLoop s d) = mkMachine AtLoop (loop_run ins s) d.
Proof.
  revert s. induction ins as [| i ins IH]; intros s; simpl.
  - reflexivity.
  - unfold main_step. cbn [mpc mvars mdiag]. apply IH.
Qed.

Lemma blink_step_blinking fan0 k j m :
  0 <= k -> blinking fan0 k j m ->
  blinking fan0 (if j + 1 <? BLINK_STEPS then k else k + 1)
                (if j + 1 <? BLINK_STEPS then j + 1 else 0) (blink_step m).
Proof.
  intros Hk [Hphase [Hre Hgap]]. unfold BLINK_STEPS, BLINK_PERIOD_US in *.
  destruct m as [p v d]. cbn [mpc mvars mdiag] in *.
  destruct Hphase as [(Hj & -> & Hfan & Hd) | (Hj & -> & Hfan & Hd)].
  - destruct (Z.ltb_spec (j + 1) (20000 + 1 + 5000 + 1)) as [_ | ?]; [| lia].
    unfold blink_step. cbn [mpc mvars mdiag].
    destruct (Z.ltb_spec j 20000) as [Hlt | Hge].
    + unfold blinking, BLINK_PERIOD_US, BLINK_STEPS. cbn [mpc mvars mdiag rearm_and_delay delay_us rearm_at_us rearms].
      split; [left | split]; [| lia | lia].
      repeat split; try lia; try assumption.
      f_equal. unfold u16. apply Z.mod_small. lia.
    + unfold blinking, BLINK_PERIOD_US, BLINK_STEPS. cbn [mpc mvars mdiag].
      split; [right | split]; [| lia | lia].
      repeat split; try lia.
      * f_equal. lia.
      * apply fan_is_on_FAN_ON.
  - unfold blink_step. cbn [mpc mvars mdiag].
    destruct (Z.ltb_spec (j - 20001) 5000) as [Hlt | Hge].
    + destruct (Z.ltb_spec (j + 1) (20000 + 1 + 5000 + 1)) as [_ | ?]; [| lia].
      unfold blinking, BLINK_PERIOD_US, BLINK_STEPS. cbn [mpc mvars mdiag rearm_and_delay delay_us rearm_at_us rearms].
      split; [right | split]; [| lia | lia].
      repeat split; try lia; try assumption.
      replace (j + 1 - 20001) with (j - 20001 + 1) by lia.
      f_equal. unfold u16. apply Z.mod_small. lia.
    + destruct (Z.ltb_spec (j + 1) (20000 + 1 + 5000 + 1)) as [? | _]; [lia |].
      unfold blinking, BLINK_PERIOD_US, BLINK_STEPS. cbn [mpc mvars mdiag].
      split; [left | split]; [| lia | lia].
      repeat split; try lia.
      * destruct (Z.eqb_spec (k + 1) 0); [lia |]. apply fan_is_on_FAN_OFF.
Qed.

Lemma succ_div_mod_steps (n : Z) :
  0 <= n ->
  (n + 1) / BLINK_STEPS =
    (if n mod BLINK_STEPS + 1 <? BLINK_STEPS
     then n / BLINK_STEPS else n / BLINK_STEPS + 1) /\
  (n + 1) mod BLINK_STEPS =
    (if n mod BLINK_STEPS + 1 <? BLINK_STEPS
     then n mod BLINK_STEPS + 1 else 0).
Proof.
  intros Hn. unfold BLINK_STEPS.
  change (20000 + 1 + 5000 + 1) with 25002.
  destruct (Z.ltb_spec (n mod 25002 + 1) 25002);
    Z.div_mod_to_equations; lia.
Qed.

Lemma main_step_blinking fan0 k j i m :
  blinking fan0 k j m -> main_step i m = blink_step m.
Proof.
  intros [[(_ & E & _) | (_ & E & _)] _]; unfold main_step; now rewrite E.
Qed.

Lemma main_run_blinking fan0 (ins : list input) (n : Z) (m : machine) :
  0 <= n ->
  blinking fan0 (n / BLINK_STEPS) (n mod BLINK_STEPS) m ->
  blinking fan0 ((n + Z.of_nat (length ins)) / BLINK_STEPS)
                ((n + Z.of_nat (length ins)) mod BLINK_STEPS)
                (main_run ins m).
Proof.
  revert n m. induction ins as [| i ins IH]; intros n m Hn Hm.
  - simpl. now rewrite Z.add_0_r.
  - cbn [main_run length]. rewrite Nat2Z.inj_succ.
    replace (n + Z.succ (Z.of_nat (length ins)))
      with ((n + 1) + Z.of_nat (length ins)) by lia.
    apply IH; [lia |].
    rewrite (main_step_blinking _ _ _ i _ Hm).
    destruct (succ_div_mod_steps n Hn) as [-> ->].
    apply blink_step_blinking; [| exact Hm].
    apply Z.div_pos; [exact Hn | unfold BLINK_STEPS; lia].
Qed.

Lemma blinking_entry (fan0 : bool) (s : vars) :
  fan_is_on s = fan0 ->
  blinking fan0 0 0 (mkMachine (AtFor1 0) s (mkDiag 0 0 0)).
Proof.
  intros E. unfold blinking, BLINK_PERIOD_US. cbn.
  split; [left | split]; [| reflexivity | lia].
  repeat split; try lia. exact E.
Qed.

(** C9.  If the watchdog flag is set in the mirror, [main] is in the
    diagnostic loop after every number of steps and never at the control
    loop.  There, step by step: 20000 turns of the first [for] (2 s of
    delay) with the fan off, [FAN_ON()], 5000 turns of the second (0.5 s)
    with the fan on, [FAN_OFF()], and again, for ever; in the very first
    2 s the pin is as the reset left it, which is low on the device.  Each
    100 microsecond delay is preceded by a re-arm of the watchdog, so the
    latest re-arm is never more than 100 microseconds old, well inside the
    60 ms period.  If the flag is clear, [main] is at the control loop
    from the first step on. *)
Theorem watchdog_reset_blinks (WDRF rstflr_mirror portb : Z) (ins : list input) :
  let m := main_run ins (main_entry WDRF rstflr_mirror portb) in
  let n := Z.of_nat (length ins) in
  (was_wdt_reset WDRF rstflr_mirror = true ->
     mpc m <> AtLoop /\
     blinking (Z.testbit portb PORTB0) (n / BLINK_STEPS) (n mod BLINK_STEPS) m /\
     (Z.testbit portb PORTB0 = false ->
        fan_is_on (mvars m) = (20000 <? n mod BLINK_STEPS)) /\
     delay_us (mdiag m) - rearm_at_us (mdiag m) < WDT_TIMEOUT_US) /\
  (was_wdt_reset WDRF rstflr_mirror = false ->
     mpc m = AtLoop /\ mvars m = loop_run ins (loop_init portb)).
Proof.
  intros m n. split.
  - intros Hflag.
    assert (B : blinking (Z.testbit portb PORTB0)
                  (n / BLINK_STEPS) (n mod BLINK_STEPS) m).
    { subst m n. unfold main_entry. rewrite Hflag.
      apply (main_run_blinking _ ins 0); [lia |].
      change (0 / BLINK_STEPS) with 0. change (0 mod BLINK_STEPS) with 0.
      apply blinking_entry. reflexivity. }
    split; [| split; [exact B | split]].
    + destruct B as [[(_ & E & _) | (_ & E & _)] _]; rewrite E; discriminate.
    + intros Hlow. destruct B as [[(Hj & _ & F & _) | (Hj & _ & F & _)] _].
      * rewrite F, Hlow.
        destruct (n / BLINK_STEPS =? 0); symmetry; apply Z.ltb_ge; lia.
      * rewrite F. symmetry. apply Z.ltb_lt. lia.
    + destruct B as (_ & _ & Hgap). unfold WDT_TIMEOUT_US. lia.
  - intros Hflag. subst m. unfold main_entry. rewrite Hflag.
    rewrite main_run_loop. split; reflexivity.
Qed.

(** A watchdog reset (flag bit 3 set in the mirror), the port clear: after
    20001 steps the loop has spent 2 s with the fan off and has just
    switched it on. *)
Lemma watchdog_reset_blinks_witness :
  let ins := repeat (tick_in 0) (Z.to_nat 20001) in
  was_wdt_reset 3 8 = true /\
  mpc (main_run ins (main_entry 3 8 0)) <> AtLoop /\
  fan_is_on (mvars (main_run ins (main_entry 3 8 0))) = true.
Proof.
  intros ins.
  pose proof (watchdog_reset_blinks 3 8 0 ins) as H. cbv zeta in H.
  destruct H as [H _]. specialize (H eq_refl).
  destruct H as (Hpc & _ & Hfan & _).
  split; [reflexivity | split; [exact Hpc |]].
  rewrite (Hfan eq_refl). unfold ins. rewrite repeat_length.
  reflexivity.
Defined.

(** ** Cool-down after the sensor stops reading hot (lines 150-151, 181) *)

Lemma input_step_times (a b : Z) (s : vars) :
  now (input_step a b s) = now s /\
  lastMeasureTemp (input_step a b s) = lastMeasureTemp s /\
  (hot s <> 0 -> lastHotTime (input_step a b s) = lastHotTime s).
Proof.
  unfold input_step, cycle_override. cbv zeta.
  cbn [hot set_fanOverride set_btnIsPressed].
  destruct (truthy (hot s)) eqn:Hh;
    [| apply truthy_false in Hh]; cbn [negb orb]; split_ifs; cbn;
    repeat split; intros; congruence.
Qed.

Lemma decide_step_times (s : vars) :
  now (decide_step s) = now s /\
  lastMeasureTemp (decide_step s) = lastMeasureTemp s /\
  (hot s <> 0 -> lastHotTime (decide_step s) = lastHotTime s).
Proof.
  unfold decide_step.
  destruct (truthy (hot s)) eqn:Hh;
    [| apply truthy_false in Hh]; cbn [negb orb]; split_ifs; cbn;
    repeat split; intros; congruence.
Qed.

Lemma sample_step_sampled (v : Z) (s : vars) :
  age (now s) (lastMeasureTemp s) <= TEMP_MEASURE_INTERVAL ->
  (hot s <> 0 -> lastHotTime s = lastMeasureTemp s) ->
  sampled (sample_step v s).
Proof.
  intros Hage Hhot. unfold sampled, sample_step.
  destruct (Z.geb_spec (age (now s) (lastMeasureTemp s)) TEMP_MEASURE_INTERVAL)
    as [Hdue | Hnot].
  - unfold hysteresis. cbv zeta. split_ifs; cbn;
      (split; [unfold TEMP_MEASURE_INTERVAL; mod256 |]);
      intros Hh; try reflexivity; try congruence;
      match goal with
      | H : truthy _ = false |- _ => apply truthy_false in H; cbn in H; congruence
      end.
  - split; [lia | exact Hhot].
Qed.

Lemma sampled_loop_iter (i : input) (s : vars) :
  sampled s -> sampled (loop_iter i s).
Proof.
  intros [Hage Hhot].
  assert (H0 : sampled (before_input i s)).
  { unfold before_input. apply sample_step_sampled;
      unfold tick_step; destruct (wdt_timedout i);
      cbn [now lastMeasureTemp lastHotTime hot set_now]; try exact Hhot.
    - unfold TEMP_MEASURE_INTERVAL in *. clear - Hage. mod256.
    - lia. }
  destruct H0 as [S1a S1h].
  destruct (input_step_times (PINB_155 i) (PINB_176 i) (before_input i s))
    as (In & Im & Il).
  fold (before_decide i s) in In, Im, Il.
  destruct (decide_step_times (before_decide i s)) as (Dn & Dm & Dl).
  fold (loop_iter i s) in Dn, Dm, Dl.
  unfold sampled. rewrite Dn, Dm, In, Im. split; [exact S1a |].
  rewrite hot_loop_iter. fold (before_input i s). intros Hh.
  rewrite Dl, Il, S1h; try reflexivity; try assumption.
  unfold before_decide. now rewrite hot_input_step.
Qed.

Lemma sampled_loop_run (ins : list input) (s : vars) :
  sampled s -> sampled (loop_run ins s).
Proof.
  revert s. induction ins as [| i ins IH]; intros s H; simpl.
  - exact H.
  - apply IH, sampled_loop_iter, H.
Qed.

Lemma sampled_loop_init (portb : Z) : sampled (loop_init portb).
Proof.
  unfold sampled, loop_init, TEMP_MEASURE_INTERVAL. cbn.
  split; [reflexivity | congruence].
Qed.

Lemma cooling_starts (i0 : input) (s : vars) :
  sampled s -> hot s <> 0 ->
  fanOverride s = FAN_OVERRIDE_NONE -> btnIsPressed s = 0 ->
  TEMP_MEASURE_INTERVAL <=
    age (now (tick_step (wdt_timedout i0) s)) (lastMeasureTemp s) ->
  COOL_VAL < ADCL i0 -> untouched i0 = true ->
  cooling TEMP_MEASURE_INTERVAL (loop_iter i0 s) /\
  fan_is_on (loop_iter i0 s) = true /\
  0 <= now (loop_iter i0 s) < 256.
Proof.
  intros [Hage Hlast] Hhot Hnone Hup Hdue Hcool Hu.
  destruct (untouched_inv i0 Hu) as [Hpa Hpb].
  specialize (Hlast Hhot).
  unfold TEMP_MEASURE_INTERVAL, COOL_VAL in *.
  assert (Ht : wdt_timedout i0 = true).
  { destruct (wdt_timedout i0); [reflexivity |]. cbn in Hdue. lia. }
  rewrite Ht in Hdue. cbn [tick_step now set_now] in Hdue.
  assert (H32 : age (u8 (now s + 1)) (lastMeasureTemp s) = 32)
    by (clear - Hage Hdue; mod256).
  set (s1 := set_hot 0 (set_lastMeasureTemp (u8 (now s + 1))
                          (set_now (u8 (now s + 1)) s))).
  assert (E1 : before_input i0 s = s1).
  { unfold before_input, sample_step. rewrite Ht.
    cbn [tick_step now set_now lastMeasureTemp].
    replace (age (u8 (now s + 1)) (lastMeasureTemp s) >=? TEMP_MEASURE_INTERVAL)
      with true by (symmetry; apply Z.geb_le; unfold TEMP_MEASURE_INTERVAL; lia).
    unfold hysteresis, COOL_VAL. cbv zeta.
    replace (ADCL i0 >? 27) with true by (symmetry; apply Z.gtb_lt; lia).
    reflexivity. }
  assert (E2 : before_decide i0 s = s1).
  { unfold before_decide. rewrite E1.
    apply input_step_untouched; assumption. }
  assert (Hage1 : age (now s1) (lastHotTime s1) = 32).
  { subst s1. cbn [now lastHotTime set_hot set_lastMeasureTemp set_now].
    rewrite Hlast. exact H32. }
  pose proof (decide_step_cold s1 Hnone eq_refl) as D. cbv zeta in D.
  destruct D as (Dh & Db & Df & Dn & _ & Don & _).
  destruct Don as [Ef El]; [rewrite Hage1; unfold FAN_COOL_TIME; lia |].
  unfold loop_iter. rewrite E2. split; [| split].
  - unfold cooling. rewrite Dh, Db, Df, Dn, El, Hage1.
    unfold FAN_COOL_TIME. repeat split; try lia. exact Hup.
  - exact Ef.
  - rewrite Dn. subst s1. cbn [now set_hot set_lastMeasureTemp set_now].
    unfold u8. apply Z.mod_pos_bound. lia.
Qed.

(** C2, as the code has it.  Let [hot] be set in a state the loop has
    reached in automatic mode with the button up, and let the next
    iteration take a sample that reads above [COOL_VAL]: [hot] falls at
    tick [T].  With the button left alone and no reading below [HOT_VAL]
    afterwards, the fan is on while fewer than
    [FAN_COOL_TIME - TEMP_MEASURE_INTERVAL] = 93 ticks have passed since [T]
    and off from tick [T + 93] on: the window is counted from the previous
    sample, the last one at which [hot] was set, not from [T]. *)
Theorem cool_down_from_last_hot_sample
    (portb : Z) (pre : list input) (i0 : input) (post : list input) :
  let s := loop_run pre (loop_init portb) in
  let T := now (loop_iter i0 s) in
  let s' := loop_run (i0 :: post) s in
  hot s <> 0 ->
  fanOverride s = FAN_OVERRIDE_NONE -> btnIsPressed s = 0 ->
  TEMP_MEASURE_INTERVAL <=
    age (now (tick_step (wdt_timedout i0) s)) (lastMeasureTemp s) ->
  COOL_VAL < ADCL i0 -> untouched i0 = true ->
  forallb untouched post = true ->
  Forall (fun i => HOT_VAL <= ADCL i) post ->
  hot (loop_iter i0 s) = 0 /\
  hot s' = 0 /\
  now s' = u8 (T + ticks post) /\
  fan_is_on s' = (ticks post <? FAN_COOL_TIME - TEMP_MEASURE_INTERVAL).
Proof.
  intros s T s' Hhot Hnone Hup Hdue Hcool Hu Hpu Hpv.
  assert (Hs : sampled s)
    by (apply sampled_loop_run, sampled_loop_init).
  destruct (cooling_starts i0 s Hs Hhot Hnone Hup Hdue Hcool Hu)
    as (Hc & Hfan & Hnow).
  destruct (cooling_loop_run post _ _ Hc Hpu Hpv) as [Hinv Hrest].
  change (loop_run post (loop_iter i0 s)) with s' in Hinv, Hrest.
  split; [apply Hc | split; [apply Hinv | split]].
  - subst s' T. cbn [loop_run]. now apply now_loop_run.
  - destruct post as [| j post].
    + subst s'. cbn [loop_run ticks]. rewrite Hfan. reflexivity.
    + rewrite Hrest by discriminate.
      unfold FAN_COOL_TIME, TEMP_MEASURE_INTERVAL.
      destruct (Z.ltb_spec (ticks (j :: post)) (125 - 32));
        [apply Z.ltb_lt | apply Z.ltb_ge]; lia.
Qed.

(** The sensor reads hot at the sample of tick 32 and cold at the sample
    of tick 64, where [hot] falls; 93 ticks later, at tick 157, the fan is
    already off, 32 ticks before tick 64 + [FAN_COOL_TIME] = 189. *)
Lemma cool_down_from_last_hot_sample_witness :
  let pre := repeat (tick_in 10) 63 in
  let post := repeat (tick_in 200) 93 in
  let s := loop_run pre (loop_init 0) in
  let s' := loop_run (tick_in 200 :: post) s in
  (hot s <> 0 /\ now (loop_iter (tick_in 200) s) = 64 /\
   hot (loop_iter (tick_in 200) s) = 0) /\
  (now s' = 157 /\ fan_is_on s' = false).
Proof.
  intros pre post s s'.
  assert (Hhot : hot s <> 0) by (vm_compute; discriminate).
  assert (Hnone : fanOverride s = FAN_OVERRIDE_NONE) by (vm_compute; reflexivity).
  assert (Hup : btnIsPressed s = 0) by (vm_compute; reflexivity).
  assert (Hdue : TEMP_MEASURE_INTERVAL <=
                 age (now (tick_step (wdt_timedout (tick_in 200)) s))
                     (lastMeasureTemp s)) by (vm_compute; discriminate).
  assert (Hcool : COOL_VAL < ADCL (tick_in 200)) by (vm_compute; reflexivity).
  assert (Hpu : forallb untouched post = true) by (vm_compute; reflexivity).
  assert (Hall : Forall (fun i => HOT_VAL <= ADCL i) post).
  { apply Forall_forall. intros i Hi. apply repeat_spec in Hi. subst i.
    vm_compute. discriminate. }
  assert (HT : now (loop_iter (tick_in 200) s) = 64) by (vm_compute; reflexivity).
  destruct (cool_down_from_last_hot_sample 0 pre (tick_in 200) post
              Hhot Hnone Hup Hdue Hcool eq_refl Hpu Hall)
    as (Hfall & _ & Hnow & Hfan).
  fold s in Hfall, Hnow, Hfan. fold s' in Hnow, Hfan.
  rewrite HT in Hnow.
  split; [split; [exact Hhot | split; [exact HT | exact Hfall]] |].
  split.
  - rewrite Hnow. vm_compute. reflexivity.
  - rewrite Hfan. vm_compute. reflexivity.
Defined.

(** The same run, evaluated: at tick 64 + 92 the fan is still on, at tick
    64 + 93 it is off, and 93 is less than [FAN_COOL_TIME]. *)
Lemma cool_down_ends_early :
  let s := loop_run (repeat (tick_in 10) 63) (loop_init 0) in
  let at_T k := loop_run (tick_in 200 :: repeat (tick_in 200) k) s in
  (hot s = 1 /\ hot (at_T 0%nat) = 0 /\ now (at_T 0%nat) = 64) /\
  (now (at_T 92%nat) = 64 + 92 /\ fan_is_on (at_T 92%nat) = true) /\
  (now (at_T 93%nat) = 64 + 93 /\ fan_is_on (at_T 93%nat) = false) /\
  93 < FAN_COOL_TIME.
Proof. vm_compute. repeat split. Qed.

(** * Further properties of the code *)

(** ** Bit masks (lines 34-36, 80) *)

Lemma testbit_u8 (z n : Z) : Z.testbit (u8 z) n = (n <? 8) && Z.testbit z n.
Proof.
  unfold u8. change 256 with (2 ^ 8). apply Z.testbit_mod_pow2. lia.
Qed.

Lemma testbit_is_u8_high (z n : Z) : is_u8 z -> 8 <= n -> Z.testbit z n = false.
Proof.
  intros Hz Hn. rewrite <- (Z.mod_small z 256) by exact Hz.
  fold (u8 z). rewrite testbit_u8.
  destruct (Z.ltb_spec n 8); [lia | reflexivity].
Qed.

Lemma is_u8_u8 (z : Z) : is_u8 (u8 z).
Proof. unfold is_u8, u8. apply Z.mod_pos_bound. lia. Qed.

Lemma testbit_BV (b n : Z) : 0 <= b -> Z.testbit (_BV b) n = (b =? n).
Proof.
  intros Hb. unfold _BV. rewrite Z.shiftl_1_l. now apply Z.pow2_bits_eqb.
Qed.

(** Testing a register against a one-bit mask reads that bit. *)
Lemma land_BV_eqb (z b : Z) :
  0 <= b -> (Z.land z (_BV b) =? 0) = negb (Z.testbit z b).
Proof.
  intros Hb. destruct (Z.testbit z b) eqn:Hz; simpl.
  - apply Z.eqb_neq. intros E.
    assert (H : Z.testbit (Z.land z (_BV b)) b = true)
      by (rewrite Z.land_spec, Hz, testbit_BV, Z.eqb_refl by exact Hb; reflexivity).
    rewrite E, Z.bits_0 in H. discriminate.
  - apply Z.eqb_eq. apply Z.bits_inj'. intros n Hn.
    rewrite Z.land_spec, Z.bits_0, testbit_BV by exact Hb.
    destruct (Z.eqb_spec b n) as [-> | _].
    + rewrite Hz. reflexivity.
    + apply andb_false_r.
Qed.

(** Setting one bit of an 8-bit register with [|=]. *)
Lemma testbit_set_bit (z b n : Z) :
  is_u8 z -> 0 <= b < 8 ->
  Z.testbit (u8 (Z.lor z (_BV b))) n = (b =? n) || Z.testbit z n.
Proof.
  intros Hz Hb. rewrite testbit_u8, Z.lor_spec, testbit_BV by lia.
  destruct (Z.ltb_spec n 8) as [Hn | Hn]; simpl.
  - apply orb_comm.
  - rewrite (testbit_is_u8_high z n Hz Hn).
    destruct (Z.eqb_spec b n); [lia | reflexivity].
Qed.

(** Clearing one bit of an 8-bit register with [&= ~]. *)
Lemma testbit_clear_bit (z b n : Z) :
  is_u8 z -> 0 <= b < 8 ->
  Z.testbit (u8 (Z.land z (Z.lnot (_BV b)))) n = negb (b =? n) && Z.testbit z n.
Proof.
  intros Hz Hb. rewrite testbit_u8, Z.land_spec.
  destruct (Z.ltb_spec n 8) as [Hn | Hn]; simpl.
  - destruct (Z_lt_le_dec n 0) as [Hneg | Hpos].
    + rewrite (Z.testbit_neg_r z n Hneg). now rewrite !andb_false_r.
    + rewrite Z.lnot_spec, testbit_BV by lia. apply andb_comm.
  - rewrite (testbit_is_u8_high z n Hz Hn). now rewrite andb_false_r.
Qed.

(** ** The fan port along a run (lines 34-35, 162, 167, 182, 185) *)

Lemma PORTB_FAN_ON_bits (s : vars) (n : Z) :
  is_u8 (PORTB s) ->
  is_u8 (PORTB (FAN_ON s)) /\
  (n <> PORTB0 -> Z.testbit (PORTB (FAN_ON s)) n = Z.testbit (PORTB s) n).
Proof.
  intros Hp. unfold FAN_ON. cbn [PORTB set_PORTB]. split; [apply is_u8_u8 |].
  unfold PORTB0. intros Hn. rewrite testbit_set_bit by (assumption || lia).
  destruct (Z.eqb_spec 0 n); [congruence | reflexivity].
Qed.

Lemma PORTB_FAN_OFF_bits (s : vars) (n : Z) :
  is_u8 (PORTB s) ->
  is_u8 (PORTB (FAN_OFF s)) /\
  (n <> PORTB0 -> Z.testbit (PORTB (FAN_OFF s)) n = Z.testbit (PORTB s) n).
Proof.
  intros Hp. unfold FAN_OFF. cbn [PORTB set_PORTB]. split; [apply is_u8_u8 |].
  unfold PORTB0. intros Hn. rewrite testbit_clear_bit by (assumption || lia).
  destruct (Z.eqb_spec 0 n); [congruence | reflexivity].
Qed.

Lemma PORTB_cycle_override_bits (s : vars) (n : Z) :
  is_u8 (PORTB s) ->
  is_u8 (PORTB (cycle_override s)) /\
  (n <> PORTB0 ->
   Z.testbit (PORTB (cycle_override s)) n = Z.testbit (PORTB s) n).
Proof.
  intros Hp. unfold cycle_override. cbv zeta. split_ifs.
  - apply (PORTB_FAN_ON_bits (set_fanOverride FAN_OVERRIDE_ON s) n Hp).
  - apply (PORTB_FAN_OFF_bits (set_fanOverride FAN_OVERRIDE_OFF s) n Hp).
  - split; [exact Hp | reflexivity].
  - split; [exact Hp | reflexivity].
Qed.

Lemma PORTB_loop_iter_bits (i : input) (s : vars) (n : Z) :
  is_u8 (PORTB s) ->
  is_u8 (PORTB (loop_iter i s)) /\
  (n <> PORTB0 -> Z.testbit (PORTB (loop_iter i s)) n = Z.testbit (PORTB s) n).
Proof.
  intros Hp.
  assert (H1 : is_u8 (PORTB (before_decide i s)) /\
               (n <> PORTB0 ->
                Z.testbit (PORTB (before_decide i s)) n = Z.testbit (PORTB s) n)).
  { unfold before_decide, input_step.
    rewrite <- (PORTB_before_input i s) in Hp |- *. split_ifs.
    - apply (PORTB_cycle_override_bits (set_btnIsPressed 1 (before_input i s)) n Hp).
    - split; [exact Hp | reflexivity].
    - split; [exact Hp | reflexivity]. }
  destruct H1 as [Hr Hb]. unfold loop_iter, decide_step. split_ifs.
  - destruct (PORTB_FAN_ON_bits (before_decide i s) n Hr) as [Hr' Hb'].
    split; [exact Hr' |]. intros Hn. now rewrite Hb', Hb.
  - destruct (PORTB_FAN_OFF_bits (before_decide i s) n Hr) as [Hr' Hb'].
    split; [exact Hr' |]. intros Hn.
    change (PORTB (set_lastHotTime _ (FAN_OFF (before_decide i s))))
      with (PORTB (FAN_OFF (before_decide i s))).
    now rewrite Hb', Hb.
  - split; assumption.
Qed.

(** X1.  Whatever the inputs, the control loop writes the fan port through
    [FAN_ON()] and [FAN_OFF()] only, which change bit 0 and nothing else:
    after any run every other bit of an 8-bit [PORTB] is as it was, and
    the register still holds an 8-bit value. *)
Theorem loop_keeps_other_port_bits (ins : list input) (s : vars) (n : Z) :
  0 <= PORTB s < 256 ->
  n <> PORTB0 ->
  Z.testbit (PORTB (loop_run ins s)) n = Z.testbit (PORTB s) n /\
  0 <= PORTB (loop_run ins s) < 256.
Proof.
  intros Hp Hn. fold (is_u8 (PORTB s)) in Hp.
  fold (is_u8 (PORTB (loop_run ins s))).
  revert s Hp. induction ins as [| i ins IH]; intros s Hp; simpl.
  - split; [reflexivity | exact Hp].
  - destruct (PORTB_loop_iter_bits i s n Hp) as [Hr Hb].
    destruct (IH _ Hr) as [E R]. split; [| exact R].
    now rewrite E, Hb.
Qed.

(** Port 0xA4 at loop entry: a press switches the fan on, and bit 5 of
    the port is still set fifty iterations later. *)
Lemma loop_keeps_other_port_bits_witness :
  let s := loop_run (press_in 200 :: repeat (tick_in 10) 50) (loop_init 164) in
  Z.testbit (PORTB s) 5 = Z.testbit 164 5 /\ 0 <= PORTB s < 256.
Proof.
  intros s.
  apply (loop_keeps_other_port_bits
           (press_in 200 :: repeat (tick_in 10) 50) (loop_init 164) 5).
  - vm_compute. split; [discriminate | reflexivity].
  - discriminate.
Defined.

(** X2.  [BTN_ISPRESSED()] reads bit 1 of the pin register, active low,
    and the loop sees nothing else of that register: two inputs that agree
    on the watchdog flag, on the ADC result and on bit 1 of both pin reads
    take the loop to the same state. *)
Theorem button_is_pin_bit1 (i j : input) (s : vars) :
  wdt_timedout i = wdt_timedout j ->
  ADCL i = ADCL j ->
  Z.testbit (PINB_155 i) PINB1 = Z.testbit (PINB_155 j) PINB1 ->
  Z.testbit (PINB_176 i) PINB1 = Z.testbit (PINB_176 j) PINB1 ->
  (forall pinb, BTN_ISPRESSED pinb = negb (Z.testbit pinb PINB1)) /\
  loop_iter i s = loop_iter j s.
Proof.
  intros Hw Ha H1 H2.
  assert (B : forall pinb, BTN_ISPRESSED pinb = negb (Z.testbit pinb PINB1)).
  { intros pinb. unfold BTN_ISPRESSED. apply land_BV_eqb. unfold PINB1. lia. }
  split; [exact B |].
  unfold loop_iter, before_decide, before_input, input_step.
  rewrite !B, Hw, Ha, H1, H2. reflexivity.
Qed.

Lemma button_is_pin_bit1_witness :
  BTN_ISPRESSED 253 = true /\
  loop_iter (mkInput true 25 253 253) (loop_init 0) =
  loop_iter (mkInput true 25 0 0) (loop_init 0).
Proof.
  split.
  - reflexivity.
  - apply (button_is_pin_bit1 (mkInput true 25 253 253) (mkInput true 25 0 0)
             (loop_init 0)); reflexivity.
Defined.

(** ** The sampling schedule (lines 112-123) *)

Lemma now_sample_step (v : Z) (s : vars) : now (sample_step v s) = now s.
Proof. unfold sample_step, hysteresis; cbv zeta; split_ifs; reflexivity. Qed.

Lemma lastMeasureTemp_sample_step (v : Z) (s : vars) :
  lastMeasureTemp (sample_step v s) =
  if age (now s) (lastMeasureTemp s) >=? TEMP_MEASURE_INTERVAL
  then now s else lastMeasureTemp s.
Proof. unfold sample_step, hysteresis; cbv zeta; split_ifs; reflexivity. Qed.

Lemma times_loop_iter (i : input) (s : vars) :
  now (loop_iter i s) = now (tick_step (wdt_timedout i) s) /\
  lastMeasureTemp (loop_iter i s) =
    (if sample_due i s then now (tick_step (wdt_timedout i) s)
     else lastMeasureTemp s).
Proof.
  destruct (input_step_times (PINB_155 i) (PINB_176 i) (before_input i s))
    as (In & Im & _).
  destruct (decide_step_times (before_decide i s)) as (Dn & Dm & _).
  unfold loop_iter. rewrite Dn, Dm. unfold before_decide. rewrite In, Im.
  unfold before_input. rewrite now_sample_step, lastMeasureTemp_sample_step.
  split; [reflexivity |]. unfold sample_due.
  destruct (_ >=? _); [reflexivity |].
  unfold tick_step. destruct (wdt_timedout i); reflexivity.
Qed.

Lemma sample_due_on_schedule (n : Z) (i : input) (s : vars) :
  on_schedule n s ->
  sample_due i s =
    wdt_timedout i && ((n + 1) mod TEMP_MEASURE_INTERVAL =? 0).
Proof.
  intros (Hn & Enow & Elm). unfold sample_due, tick_step.
  unfold TEMP_MEASURE_INTERVAL in *.
  destruct (wdt_timedout i); cbn [now lastMeasureTemp set_now andb];
    rewrite Enow, Elm, Z.geb_leb.
  - destruct (Z.eqb_spec ((n + 1) mod 32) 0) as [E | E];
      [apply Z.leb_le | apply Z.leb_gt]; clear - Hn E; mod256.
  - apply Z.leb_gt. clear - Hn. mod256.
Qed.

Lemma on_schedule_loop_iter (n : Z) (i : input) (s : vars) :
  on_schedule n s ->
  on_schedule (n + (if wdt_timedout i then 1 else 0)) (loop_iter i s).
Proof.
  intros H. pose proof (sample_due_on_schedule n i s H) as Hdue.
  destruct (times_loop_iter i s) as [En Em].
  destruct H as (Hn & Enow & Elm).
  unfold on_schedule. rewrite En, Em, Hdue. unfold tick_step.
  unfold TEMP_MEASURE_INTERVAL in *.
  destruct (wdt_timedout i); cbn [now set_now andb].
  - split; [lia |]. rewrite Enow. split.
    + unfold u8. now rewrite Zplus_mod_idemp_l.
    + destruct (Z.eqb_spec ((n + 1) mod 32) 0) as [E | E].
      * unfold u8. rewrite Zplus_mod_idemp_l. f_equal.
        clear - Hn E. Z.div_mod_to_equations. lia.
      * rewrite Elm. f_equal. f_equal.
        clear - Hn E. Z.div_mod_to_equations. lia.
  - rewrite Z.add_0_r. repeat split; assumption.
Qed.

Lemma on_schedule_loop_run (ins : list input) (n : Z) (s : vars) :
  on_schedule n s -> on_schedule (n + ticks ins) (loop_run ins s).
Proof.
  revert n s. induction ins as [| i ins IH]; intros n s H.
  - simpl. now rewrite Z.add_0_r.
  - cbn [loop_run ticks]. rewrite Z.add_assoc.
    apply IH, on_schedule_loop_iter, H.
Qed.

Lemma on_schedule_reached (portb : Z) (ins : list input) :
  on_schedule (ticks ins) (loop_run ins (loop_init portb)).
Proof.
  apply (on_schedule_loop_run ins 0). unfold on_schedule. cbn.
  repeat split. lia.
Qed.

(** X3.  The loop started at its entry samples the temperature in exactly
    the iterations that consume tick 32, 64, 96, ...: after a run that
    consumed [n] ticks, [now] is [n] modulo 256, [lastMeasureTemp] is the
    last multiple of 32 up to [n], modulo 256, the latest sample is
    [n mod 32] ticks old, and the next iteration samples iff it consumes a
    tick and [n + 1] is a multiple of 32.  The wrap of [now] at 256 does
    not disturb the schedule. *)
Theorem sampling_schedule (portb : Z) (ins : list input) (i : input) :
  let s := loop_run ins (loop_init portb) in
  let n := ticks ins in
  now s = u8 n /\
  lastMeasureTemp s = u8 (TEMP_MEASURE_INTERVAL * (n / TEMP_MEASURE_INTERVAL)) /\
  age (now s) (lastMeasureTemp s) = n mod TEMP_MEASURE_INTERVAL /\
  sample_due i s = wdt_timedout i && ((n + 1) mod TEMP_MEASURE_INTERVAL =? 0).
Proof.
  intros s n. pose proof (on_schedule_reached portb ins) as H.
  fold s n in H. pose proof (sample_due_on_schedule n i s H) as Hdue.
  destruct H as (Hn & Enow & Elm).
  split; [exact Enow | split; [exact Elm | split; [| exact Hdue]]].
  rewrite Enow, Elm. unfold TEMP_MEASURE_INTERVAL. clear - Hn. mod256.
Qed.

(** ** What changes [hot] (lines 118, 144-147) *)

Lemma hot_loop_iter_changes (i : input) (s : vars) :
  hot (loop_iter i s) <> hot s ->
  sample_due i s = true /\ (ADCL i < HOT_VAL \/ COOL_VAL < ADCL i).
Proof.
  rewrite hot_loop_iter. unfold sample_due, sample_step.
  rewrite <- (hot_tick_step (wdt_timedout i) s).
  generalize (tick_step (wdt_timedout i) s). intros s0 Hne.
  destruct (_ >=? _); [| congruence]. split; [reflexivity |].
  destruct (Z_lt_le_dec (ADCL i) HOT_VAL) as [Hl | Hge]; [now left |].
  destruct (Z_lt_le_dec COOL_VAL (ADCL i)) as [Hg | Hle]; [now right |].
  exfalso. apply Hne.
  unfold hysteresis, COOL_VAL, HOT_VAL in *. cbv zeta.
  destruct (Z.gtb_spec (ADCL i) 27); [lia |].
  destruct (Z.ltb_spec (ADCL i) 23); [lia |].
  split_ifs; reflexivity.
Qed.

(** X5.  [hot] changes only where a sample is taken and only on a reading
    outside the dead band: from loop entry, an iteration that changes
    [hot] consumes a tick whose number is a multiple of 32 and reads a
    value below [HOT_VAL] or above [COOL_VAL]. *)
Theorem hot_flips_on_schedule (portb : Z) (ins : list input) (i : input) :
  let s := loop_run ins (loop_init portb) in
  hot (loop_iter i s) <> hot s ->
  wdt_timedout i = true /\
  (ticks ins + 1) mod TEMP_MEASURE_INTERVAL = 0 /\
  (ADCL i < HOT_VAL \/ COOL_VAL < ADCL i).
Proof.
  intros s Hne. destruct (hot_loop_iter_changes i s Hne) as [Hdue Hval].
  rewrite (sample_due_on_schedule (ticks ins) i s
             (on_schedule_reached portb ins)) in Hdue.
  apply andb_true_iff in Hdue. destruct Hdue as [Ht Hm].
  apply Z.eqb_eq in Hm. auto.
Qed.

Lemma hot_flips_on_schedule_witness :
  let ins := repeat (tick_in 25) 31 in
  hot (loop_iter (tick_in 10) (loop_run ins (loop_init 0))) <>
    hot (loop_run ins (loop_init 0)) /\
  (ticks ins + 1) mod TEMP_MEASURE_INTERVAL = 0.
Proof.
  intros ins.
  assert (H : hot (loop_iter (tick_in 10) (loop_run ins (loop_init 0))) <>
              hot (loop_run ins (loop_init 0)))
    by (vm_compute; discriminate).
  split; [exact H |].
  apply (hot_flips_on_schedule 0 ins (tick_in 10) H).
Defined.

(** X6.  While [hot] is set, [lastHotTime] is the time of the latest
    sample: in every state reached from loop entry with [hot] set,
    [lastHotTime] equals [lastMeasureTemp] and is less than 32 ticks old. *)
Theorem hot_stamp_is_latest_sample (portb : Z) (ins : list input) :
  let s := loop_run ins (loop_init portb) in
  hot s <> 0 ->
  lastHotTime s = lastMeasureTemp s /\
  age (now s) (lastHotTime s) = ticks ins mod TEMP_MEASURE_INTERVAL /\
  age (now s) (lastHotTime s) < TEMP_MEASURE_INTERVAL.
Proof.
  intros s Hhot.
  destruct (sampled_loop_run ins _ (sampled_loop_init portb)) as [Hage Hl].
  fold s in Hage, Hl. specialize (Hl Hhot).
  pose proof (on_schedule_reached portb ins) as (Hn & Enow & Elm). fold s in Enow, Elm.
  rewrite Hl. split; [reflexivity | split; [| exact Hage]].
  rewrite Enow, Elm. unfold TEMP_MEASURE_INTERVAL. clear - Hn. mod256.
Qed.

Lemma hot_stamp_is_latest_sample_witness :
  let s := loop_run (repeat (tick_in 10) 40) (loop_init 0) in
  hot s <> 0 /\ lastHotTime s = lastMeasureTemp s.
Proof.
  intros s.
  assert (H : hot s <> 0) by (vm_compute; discriminate).
  split; [exact H |].
  apply (hot_stamp_is_latest_sample 0 (repeat (tick_in 10) 40) H).
Defined.

(** ** Value ranges *)

Ltac range_of step :=
  unfold vars_in_range; intros (Hn & Hm & Hl & Hh & Hb & Hf & Hp);
  unfold step, FAN_ON, FAN_OFF; cbv zeta; split_ifs;
  cbn [now lastMeasureTemp lastHotTime hot btnIsPressed fanOverride PORTB
       set_now set_lastMeasureTemp set_lastHotTime set_hot set_btnIsPressed
       set_fanOverride set_PORTB];
  repeat match goal with |- _ /\ _ => split end; auto using is_u8_u8.

Lemma vars_in_range_tick_step b s :
  vars_in_range s -> vars_in_range (tick_step b s).
Proof. range_of tick_step. Qed.

Lemma vars_in_range_hysteresis v s :
  vars_in_range s -> vars_in_range (hysteresis v s).
Proof. range_of hysteresis. Qed.

Lemma vars_in_range_sample_step v s :
  vars_in_range s -> vars_in_range (sample_step v s).
Proof.
  intros H. unfold sample_step. destruct (_ >=? _); [| exact H].
  apply vars_in_range_hysteresis. revert H.
  range_of set_lastMeasureTemp.
Qed.

Lemma vars_in_range_cycle_override s :
  vars_in_range s -> vars_in_range (cycle_override s).
Proof. range_of cycle_override. Qed.

Lemma vars_in_range_input_step a b s :
  vars_in_range s -> vars_in_range (input_step a b s).
Proof.
  intros H. unfold input_step. split_ifs; try exact H.
  - apply vars_in_range_cycle_override. revert H. range_of set_btnIsPressed.
  - revert H. range_of set_btnIsPressed.
Qed.

Lemma vars_in_range_decide_step s :
  vars_in_range s -> vars_in_range (decide_step s).
Proof. range_of decide_step. Qed.

Lemma vars_in_range_loop_iter (i : input) (s : vars) :
  vars_in_range s -> vars_in_range (loop_iter i s).
Proof.
  intros H. unfold loop_iter, before_decide, before_input.
  now apply vars_in_range_decide_step, vars_in_range_input_step,
    vars_in_range_sample_step, vars_in_range_tick_step.
Qed.

Lemma vars_in_range_loop_run (ins : list input) (s : vars) :
  vars_in_range s -> vars_in_range (loop_run ins s).
Proof.
  revert s. induction ins as [| i ins IH]; intros s H; simpl.
  - exact H.
  - apply IH, vars_in_range_loop_iter, H.
Qed.

Lemma vars_in_range_loop_init (portb : Z) :
  is_u8 portb -> vars_in_range (loop_init portb).
Proof.
  intros Hp. unfold vars_in_range, loop_init. cbn.
  repeat match goal with |- _ /\ _ => split end; auto using is_u8_u8;
    unfold is_u8; lia.
Qed.

(** X4.  No variable ever leaves the range of its C type: in every state
    reached from loop entry with an 8-bit port, the three time stamps and
    [PORTB] are in 0..255, [hot] and [btnIsPressed] are 0 or 1 and
    [fanOverride] is one of its three constants. *)
Theorem variables_stay_in_range (portb : Z) (ins : list input) :
  0 <= portb < 256 ->
  vars_in_range (loop_run ins (loop_init portb)).
Proof.
  intros Hp. apply vars_in_range_loop_run, vars_in_range_loop_init, Hp.
Qed.

Lemma variables_stay_in_range_witness :
  0 <= 164 < 256 /\
  vars_in_range (loop_run (press_in 10 :: repeat (tick_in 10) 300) (loop_init 164)).
Proof.
  split; [lia |]. apply (variables_stay_in_range 164). lia.
Defined.

(** ** The sampler does not depend on the button (lines 112-152) *)

Lemma thermal_loop_iter (i : input) (s : vars) :
  thermal (loop_iter i s) =
  thermal (sample_step (ADCL i) (tick_step (wdt_timedout i) s)).
Proof.
  destruct (input_step_times (PINB_155 i) (PINB_176 i) (before_input i s))
    as (In & Im & _).
  destruct (decide_step_times (before_decide i s)) as (Dn & Dm & _).
  unfold thermal. rewrite hot_loop_iter. unfold loop_iter.
  rewrite Dn, Dm. unfold before_decide. rewrite In, Im. reflexivity.
Qed.

Lemma thermal_sample_tick (b : bool) (v : Z) (s1 s2 : vars) :
  thermal s1 = thermal s2 ->
  thermal (sample_step v (tick_step b s1)) =
  thermal (sample_step v (tick_step b s2)).
Proof.
  destruct s1 as [n1 m1 l1 h1 b1 f1 p1], s2 as [n2 m2 l2 h2 b2 f2 p2].
  unfold thermal. cbn [now lastMeasureTemp hot]. intros E.
  injection E as -> -> ->.
  unfold sample_step, hysteresis, tick_step. cbv zeta.
  destruct b;
    cbn [now lastMeasureTemp hot set_now set_lastMeasureTemp set_hot];
    split_ifs; reflexivity.
Qed.

(** X7.  The button never reaches the sampler: two runs fed with the same
    watchdog flags and ADC results, from states that agree on [now],
    [lastMeasureTemp] and [hot], end with the same [now],
    [lastMeasureTemp] and [hot], whatever the pin reads, the overrides and
    the fan did in either. *)
Theorem sampler_ignores_button (ins1 ins2 : list input) (s1 s2 : vars) :
  thermal s1 = thermal s2 ->
  map thermal_input ins1 = map thermal_input ins2 ->
  thermal (loop_run ins1 s1) = thermal (loop_run ins2 s2).
Proof.
  revert ins2 s1 s2.
  induction ins1 as [| i ins1 IH]; intros [| j ins2] s1 s2 Hs Hin;
    try discriminate Hin.
  - exact Hs.
  - cbn [map] in Hin.
    assert (Hij : thermal_input i = thermal_input j) by congruence.
    assert (Hrest : map thermal_input ins1 = map thermal_input ins2)
      by congruence.
    assert (Hw : wdt_timedout i = wdt_timedout j)
      by exact (f_equal fst Hij).
    assert (Ha : ADCL i = ADCL j) by exact (f_equal snd Hij).
    cbn [loop_run]. apply IH; [| exact Hrest].
    rewrite !thermal_loop_iter, Hw, Ha. now apply thermal_sample_tick.
Qed.

(** One run with the button left alone, one with the button held down
    from the start (which engages the override): same thermal state. *)
Lemma sampler_ignores_button_witness :
  thermal (loop_run (repeat (tick_in 10) 70) (loop_init 0)) =
  thermal (loop_run (repeat (press_in 10) 70) (loop_init 1)).
Proof.
  apply sampler_ignores_button.
  - reflexivity.
  - vm_compute. reflexivity.
Defined.

(** ** The grace window from any state (lines 179-188) *)

(** X8.  In automatic mode with [hot] clear, the button left alone and no
    reading below [HOT_VAL], the fan is on exactly until [lastHotTime] is
    [FAN_COOL_TIME] ticks old and then off for good: however many ticks
    follow, the wrap of [now] included, the age of [lastHotTime] is held at
    [FAN_COOL_TIME] and the window does not open again. *)
Theorem grace_window_runs_out (ins : list input) (s : vars) :
  hot s = 0 -> btnIsPressed s = 0 -> fanOverride s = FAN_OVERRIDE_NONE ->
  age (now s) (lastHotTime s) <= FAN_COOL_TIME ->
  ins <> [] ->
  forallb untouched ins = true ->
  Forall (fun i => HOT_VAL <= ADCL i) ins ->
  let a := age (now s) (lastHotTime s) in
  let s' := loop_run ins s in
  fan_is_on s' = (a + ticks ins <? FAN_COOL_TIME) /\
  age (now s') (lastHotTime s') = Z.min FAN_COOL_TIME (a + ticks ins) /\
  hot s' = 0 /\ fanOverride s' = FAN_OVERRIDE_NONE.
Proof.
  intros Hh Hb Hf Ha Hne Hu Hv a s'.
  assert (Hc : cooling a s).
  { unfold cooling. repeat split; try assumption.
    apply (age_range (now s) (lastHotTime s)). }
  destruct (cooling_loop_run ins a s Hc Hu Hv) as [Hinv Hfan].
  fold s' in Hinv, Hfan. destruct Hinv as (Hh' & _ & Hf' & _ & Hage).
  repeat split; try assumption. now apply Hfan.
Qed.

(** The fan has just gone off (age 125); a thousand ticks of cold
    readings later it is still off. *)
Lemma grace_window_runs_out_witness :
  let s := mkVars 200 192 75 0 0 FAN_OVERRIDE_NONE 0 in
  let ins := repeat (tick_in 200) 1000 in
  age (now s) (lastHotTime s) = 125 /\ ticks ins = 1000 /\
  fan_is_on (loop_run ins s) = false.
Proof.
  intros s ins.
  assert (Hv : Forall (fun i => HOT_VAL <= ADCL i) ins).
  { apply Forall_forall. intros i Hi. apply repeat_spec in Hi. subst i.
    vm_compute. discriminate. }
  assert (Ht : ticks ins = 1000) by (vm_compute; reflexivity).
  assert (Hu : forallb untouched ins = true) by (vm_compute; reflexivity).
  assert (Hne : ins <> []) by discriminate.
  assert (Ha : age (now s) (lastHotTime s) <= FAN_COOL_TIME)
    by (vm_compute; discriminate).
  destruct (grace_window_runs_out ins s eq_refl eq_refl eq_refl Ha Hne Hu Hv)
    as (Hfan & _).
  split; [reflexivity | split; [exact Ht |]].
  rewrite Hfan, Ht. reflexivity.
Defined.

(** ** Leaving the override while the sensor reads hot (lines 169-182) *)

(** X9.  When the poll sees a press edge while [fanOverride] is OFF and
    [hot] is set, [fanOverride] returns to NONE, the poll leaves
    [lastHotTime] alone, and the decision of the same iteration switches
    the fan on. *)
Theorem back_to_auto_while_hot (i : input) (s : vars) :
  let s0 := before_input i s in
  let s2 := loop_iter i s in
  fanOverride s0 = FAN_OVERRIDE_OFF ->
  press_edge i s0 = true ->
  hot s0 <> 0 ->
  fanOverride s2 = FAN_OVERRIDE_NONE /\
  lastHotTime s2 = lastHotTime s0 /\
  hot s2 = hot s0 /\
  fan_is_on s2 = true.
Proof.
  cbv zeta. unfold loop_iter, before_decide.
  generalize (before_input i s). intros s0 Hoff Hpress Hhot.
  apply truthy_true in Hhot.
  assert (E1 : input_step (PINB_155 i) (PINB_176 i) s0 =
               set_fanOverride FAN_OVERRIDE_NONE (set_btnIsPressed 1 s0)).
  { unfold input_step. unfold press_edge in Hpress. rewrite Hpress.
    unfold cycle_override. cbv zeta.
    cbn [fanOverride set_btnIsPressed hot set_fanOverride].
    rewrite Hoff, Hhot. reflexivity. }
  rewrite E1. unfold decide_step.
  cbn [fanOverride hot set_fanOverride set_btnIsPressed].
  rewrite Hhot. cbn [Z.eqb FAN_OVERRIDE_NONE orb].
  repeat split. apply fan_is_on_FAN_ON.
Qed.

Lemma back_to_auto_while_hot_witness :
  let s := mkVars 40 32 32 1 0 FAN_OVERRIDE_OFF 0 in
  fanOverride (before_input (press_in 25) s) = FAN_OVERRIDE_OFF /\
  hot (before_input (press_in 25) s) <> 0 /\
  fan_is_on (loop_iter (press_in 25) s) = true.
Proof.
  intros s. split; [reflexivity | split; [discriminate |]].
  apply (back_to_auto_while_hot (press_in 25) s).
  - reflexivity.
  - reflexivity.
  - discriminate.
Defined.

(** ** Presses and releases in sequence (lines 155-177) *)

Lemma press_run (ins : list input) (s : vars) :
  ins <> [] -> forallb held ins = true -> btnIsPressed s = 0 ->
  fanOverride (loop_run ins s) = next_override (fanOverride s) /\
  btnIsPressed (loop_run ins s) <> 0.
Proof.
  intros Hne Hall Hs. destruct ins as [| i ins]; [congruence |].
  cbn [loop_run forallb] in *. apply andb_true_iff in Hall.
  destruct Hall as [Hi Hall].
  pose proof (btnIsPressed_loop_iter_held i s Hi) as Hb.
  split.
  - rewrite fanOverride_loop_run_still_held by assumption.
    rewrite fanOverride_loop_iter. unfold press_edge.
    destruct (held_inv i Hi) as [Ha _]. rewrite Ha, Hs. reflexivity.
  - clear Hs Hi. revert Hb. generalize (loop_iter i s). clear s i Hne.
    induction ins as [| j ins IH]; intros s Hb; [exact Hb |].
    cbn [loop_run forallb] in *. apply andb_true_iff in Hall.
    destruct Hall as [Hj Hall]. apply (IH Hall).
    now apply btnIsPressed_loop_iter_held.
Qed.

Lemma release_iter (i : input) (s : vars) :
  untouched i = true ->
  fanOverride (loop_iter i s) = fanOverride s /\
  btnIsPressed (loop_iter i s) = 0.
Proof.
  intros Hu. destruct (untouched_inv i Hu) as [Ha Hb]. split.
  - rewrite fanOverride_loop_iter. unfold press_edge. now rewrite Ha.
  - unfold loop_iter, before_decide. rewrite btnIsPressed_decide_step.
    unfold input_step. rewrite Ha, Hb. cbn [andb negb].
    destruct (truthy (btnIsPressed (before_input i s))) eqn:Ht.
    + reflexivity.
    + now apply truthy_false in Ht.
Qed.

Lemma release_run (ins : list input) (s : vars) :
  ins <> [] -> forallb untouched ins = true ->
  fanOverride (loop_run ins s) = fanOverride s /\
  btnIsPressed (loop_run ins s) = 0.
Proof.
  revert s. induction ins as [| i ins IH]; intros s Hne Hall; [congruence |].
  cbn [loop_run forallb] in *. apply andb_true_iff in Hall.
  destruct Hall as [Hi Hall].
  destruct (release_iter i s Hi) as [Hf Hb].
  destruct ins as [| j ins].
  - simpl. now split.
  - destruct (IH (loop_iter i s)) as [Hf' Hb']; [discriminate | exact Hall |].
    split; [now rewrite Hf', Hf | exact Hb'].
Qed.

Lemma press_release_run (down up : list input) (s : vars) :
  down <> [] -> up <> [] ->
  forallb held down = true -> forallb untouched up = true ->
  btnIsPressed s = 0 ->
  fanOverride (loop_run (down ++ up) s) = next_override (fanOverride s) /\
  btnIsPressed (loop_run (down ++ up) s) = 0.
Proof.
  intros Hd Hu Hh Hr Hs. rewrite loop_run_app.
  destruct (press_run down s Hd Hh Hs) as [Hf _].
  destruct (release_run up (loop_run down s) Hu Hr) as [Hf' Hb'].
  split; [now rewrite Hf', Hf | exact Hb'].
Qed.

(** X10.  Three presses bring the override back to where it was: from a
    state with the button up and [fanOverride] one of its three constants,
    three rounds of holding the button for any number of polls and
    letting it go for any number of polls end with the same
    [fanOverride], whatever the ticks and readings meanwhile; one round
    moves it one step. *)
Theorem three_presses_come_round
    (d1 u1 d2 u2 d3 u3 : list input) (s : vars) :
  btnIsPressed s = 0 ->
  (fanOverride s = FAN_OVERRIDE_NONE \/ fanOverride s = FAN_OVERRIDE_ON \/
   fanOverride s = FAN_OVERRIDE_OFF) ->
  d1 <> [] /\ d2 <> [] /\ d3 <> [] /\ u1 <> [] /\ u2 <> [] /\ u3 <> [] ->
  forallb held (d1 ++ d2 ++ d3) = true ->
  forallb untouched (u1 ++ u2 ++ u3) = true ->
  fanOverride (loop_run (d1 ++ u1) s) = next_override (fanOverride s) /\
  fanOverride (loop_run ((d1 ++ u1) ++ (d2 ++ u2) ++ (d3 ++ u3)) s) =
    fanOverride s.
Proof.
  intros Hs Hf (Hd1 & Hd2 & Hd3 & Hu1 & Hu2 & Hu3) Hh Hr.
  rewrite !forallb_app in Hh, Hr.
  apply andb_true_iff in Hh. destruct Hh as [Hh1 Hh].
  apply andb_true_iff in Hh. destruct Hh as [Hh2 Hh3].
  apply andb_true_iff in Hr. destruct Hr as [Hr1 Hr].
  apply andb_true_iff in Hr. destruct Hr as [Hr2 Hr3].
  destruct (press_release_run d1 u1 s Hd1 Hu1 Hh1 Hr1 Hs) as [F1 B1].
  split; [exact F1 |].
  rewrite (loop_run_app (d1 ++ u1)), (loop_run_app (d2 ++ u2)).
  set (s1 := loop_run (d1 ++ u1) s) in *.
  destruct (press_release_run d2 u2 s1 Hd2 Hu2 Hh2 Hr2 B1) as [F2 B2].
  set (s2 := loop_run (d2 ++ u2) s1) in *.
  destruct (press_release_run d3 u3 s2 Hd3 Hu3 Hh3 Hr3 B2) as [F3 _].
  rewrite F3, F2, F1. unfold next_override.
  destruct Hf as [-> | [-> | ->]]; reflexivity.
Qed.

Lemma three_presses_come_round_witness :
  let d := repeat (press_in 25) 3 in
  let u := repeat (tick_in 25) 5 in
  fanOverride (loop_run ((d ++ u) ++ (d ++ u) ++ (d ++ u)) (loop_init 0)) =
  fanOverride (loop_init 0).
Proof.
  intros d u.
  apply (three_presses_come_round d u d u d u (loop_init 0)).
  - reflexivity.
  - left. reflexivity.
  - repeat split; discriminate.
  - vm_compute. reflexivity.
  - vm_compute. reflexivity.
Defined.

(** ** The fan pin agrees with the variables (lines 159-188) *)

Lemma fan_law_loop_iter (i : input) (s : vars) :
  override_forces s -> fan_is_on (loop_iter i s) = fan_law (loop_iter i s).
Proof.
  intros H. pose proof (override_forces_loop_iter i s H) as H'.
  destruct H' as [E | [[E F] | [E F]]].
  - unfold fan_law. rewrite E, Z.eqb_refl.
    unfold loop_iter in *. rewrite fanOverride_decide_step in E.
    unfold decide_step. rewrite E, Z.eqb_refl.
    destruct (truthy (hot (before_decide i s)) ||
              (age (now (before_decide i s)) (lastHotTime (before_decide i s))
               <? FAN_COOL_TIME)) eqn:Hc.
    + rewrite fan_is_on_FAN_ON.
      cbn [hot now lastHotTime FAN_ON set_PORTB]. symmetry. exact Hc.
    + apply orb_false_iff in Hc. destruct Hc as [Hh _].
      assert (Ef : forall v s0, fan_is_on (set_lastHotTime v (FAN_OFF s0)) = false)
        by (intros v s0; apply (fan_is_on_FAN_OFF s0)).
      rewrite Ef.
      cbn [hot now lastHotTime set_lastHotTime FAN_OFF set_PORTB].
      rewrite Hh, age_rewound. reflexivity.
  - unfold fan_law. rewrite E, F. reflexivity.
  - unfold fan_law. rewrite E, F. reflexivity.
Qed.

Lemma fan_law_loop_run (ins : list input) (s : vars) :
  override_forces s -> ins <> [] ->
  fan_is_on (loop_run ins s) = fan_law (loop_run ins s).
Proof.
  revert s. induction ins as [| i ins IH]; intros s H Hne; [congruence |].
  cbn [loop_run]. destruct ins as [| j ins].
  - apply fan_law_loop_iter, H.
  - apply IH; [| discriminate]. apply override_forces_loop_iter, H.
Qed.

(** X11.  At the end of every iteration of the loop started at its entry
    the fan pin is what the variables call for: high under the ON
    override, low under the OFF override, and in automatic mode high
    exactly when [hot] is set or [lastHotTime] is less than
    [FAN_COOL_TIME] ticks old. *)
Theorem fan_follows_variables (portb : Z) (ins : list input) :
  ins <> [] ->
  fan_is_on (loop_run ins (loop_init portb)) =
  fan_law (loop_run ins (loop_init portb)).
Proof.
  intros Hne. apply fan_law_loop_run; [| exact Hne]. left. reflexivity.
Qed.

Lemma fan_follows_variables_witness :
  let ins := repeat (tick_in 10) 40 ++ press_in 10 :: repeat (tick_in 200) 9 in
  ins <> [] /\
  fan_law (loop_run ins (loop_init 0)) = true /\
  fan_is_on (loop_run ins (loop_init 0)) = true.
Proof.
  intros ins.
  assert (Hne : ins <> []) by discriminate.
  assert (Hl : fan_law (loop_run ins (loop_init 0)) = true)
    by (vm_compute; reflexivity).
  split; [exact Hne | split; [exact Hl |]].
  rewrite (fan_follows_variables 0 ins Hne). exact Hl.
Defined.

(** ** The diagnostic loop and the loop variables (lines 70-104) *)

Lemma blink_step_frame (m : machine) :
  mpc m <> AtLoop ->
  mpc (blink_step m) <> AtLoop /\
  mvars (blink_step m) = set_PORTB (PORTB (mvars (blink_step m))) (mvars m).
Proof.
  intros Hpc. unfold blink_step. destruct m as [p [n lm lh h b f pb] d].
  cbn [mpc mvars] in *. destruct p as [j | j |]; [| | congruence];
    split_ifs; cbn; split; (discriminate || reflexivity).
Qed.

Lemma main_run_blink (ins : list input) (m : machine) :
  mpc m <> AtLoop ->
  main_run ins m = Nat.iter (length ins) blink_step m.
Proof.
  revert m. induction ins as [| i ins IH]; intros m Hpc; [reflexivity |].
  cbn [main_run length]. rewrite Nat.iter_succ_r.
  assert (E : main_step i m = blink_step m).
  { unfold main_step. destruct (mpc m); congruence || reflexivity. }
  rewrite E. apply IH. now apply blink_step_frame.
Qed.

Lemma iter_blink_frame (n : nat) (m : machine) :
  mpc m <> AtLoop ->
  mpc (Nat.iter n blink_step m) <> AtLoop /\
  mvars (Nat.iter n blink_step m) =
    set_PORTB (PORTB (mvars (Nat.iter n blink_step m))) (mvars m).
Proof.
  intros Hpc. induction n as [| n [IHp IHv]].
  - simpl. split; [exact Hpc |]. now destruct (mvars m).
  - rewrite Nat.iter_succ. revert IHp IHv.
    generalize (Nat.iter n blink_step m). intros x IHp IHv.
    destruct (blink_step_frame x IHp) as [Hp Hv].
    split; [exact Hp |].
    transitivity (set_PORTB (PORTB (mvars (blink_step x))) (mvars x));
      [exact Hv |].
    rewrite IHv. reflexivity.
Qed.

(** X12.  The diagnostic loop neither samples nor polls: after a watchdog
    reset the state of [main] after any number of steps depends on that
    number only, not on what the watchdog flag, the ADC or the pins read
    meanwhile, and the loop variables keep their initial values; the fan
    port is the only thing that changes. *)
Theorem diagnostic_loop_is_deaf
    (WDRF rstflr portb : Z) (ins1 ins2 : list input) :
  was_wdt_reset WDRF rstflr = true ->
  length ins1 = length ins2 ->
  let m := main_run ins1 (main_entry WDRF rstflr portb) in
  m = main_run ins2 (main_entry WDRF rstflr portb) /\
  mvars m = set_PORTB (PORTB (mvars m)) (loop_init portb).
Proof.
  intros Hflag Hlen m. subst m.
  assert (Hpc : mpc (main_entry WDRF rstflr portb) <> AtLoop)
    by (unfold main_entry; rewrite Hflag; discriminate).
  rewrite !main_run_blink by exact Hpc. rewrite Hlen. split; [reflexivity |].
  apply (iter_blink_frame (length ins2) _ Hpc).
Qed.

Lemma diagnostic_loop_is_deaf_witness :
  was_wdt_reset 3 8 = true /\
  main_run (repeat (press_in 10) 30) (main_entry 3 8 0) =
  main_run (repeat (mkInput false 200 2 2) 30) (main_entry 3 8 0).
Proof.
  split; [reflexivity |].
  apply (diagnostic_loop_is_deaf 3 8 0
           (repeat (press_in 10) 30) (repeat (mkInput false 200 2 2) 30)).
  - reflexivity.
  - reflexivity.
Defined.

(** ** The start-up hook (lines 45-52, 80) *)

(** X13.  [main] takes the diagnostic branch exactly when bit [WDRF] of
    the reset flag register was set when [get_rstflr] ran, whatever the
    mirror held before; [get_rstflr] leaves the register cleared and the
    watchdog enabled with its 60 ms period, so a start-up that finds the
    register as the hook left it goes to the control loop. *)
Theorem startup_reads_reset_cause (WDRF : Z) (h : hw) (portb : Z) :
  0 <= WDRF ->
  mpc (startup WDRF h portb) =
    (if Z.testbit (RSTFLR h) WDRF then AtFor1 0 else AtLoop) /\
  RSTFLR (get_rstflr h) = 0 /\
  wdt_period_us (get_rstflr h) = Some WDT_TIMEOUT_US /\
  mpc (startup WDRF (get_rstflr h) portb) = AtLoop.
Proof.
  intros Hb. unfold startup, main_entry, was_wdt_reset, get_rstflr.
  cbn [mpc rstflr_mirror RSTFLR wdt_period_us].
  rewrite land_BV_eqb by exact Hb. rewrite negb_involutive.
  repeat split.
Qed.

Lemma startup_reads_reset_cause_witness :
  mpc (startup 3 (mkHw 8 255 None) 0) = AtFor1 0 /\
  mpc (startup 3 (mkHw 1 255 None) 0) = AtLoop.
Proof.
  split.
  - apply (startup_reads_reset_cause 3 (mkHw 8 255 None) 0). lia.
  - apply (startup_reads_reset_cause 3 (mkHw 1 255 None) 0). lia.
Defined.

(** ** The sensor pull-up (lines 59, 121, 142) *)

Lemma pullup_cycle_bits (pueb n : Z) :
  is_u8 pueb ->
  is_u8 (pullup_disable (pullup_enable pueb)) /\
  Z.testbit (pullup_disable (pullup_enable pueb)) n =
    negb (PUEB2 =? n) && Z.testbit pueb n.
Proof.
  intros Hp. unfold pullup_disable, pullup_enable, PUEB2.
  split; [apply is_u8_u8 |].
  rewrite testbit_clear_bit by (apply is_u8_u8 || lia).
  rewrite testbit_set_bit by (assumption || lia).
  destruct (2 =? n); reflexivity.
Qed.

Lemma loop_run_PUEB_bits (ins : list input) (s : vars) (pueb n : Z) :
  is_u8 pueb ->
  is_u8 (loop_run_PUEB ins s pueb) /\
  Z.testbit (loop_run_PUEB ins s pueb) n =
    (if (0 <? samples ins s) && (PUEB2 =? n) then false
     else Z.testbit pueb n).
Proof.
  revert s pueb. induction ins as [| i ins IH]; intros s pueb Hp.
  - simpl. split; [exact Hp | reflexivity].
  - cbn [loop_run_PUEB samples].
    assert (Hs : 0 <= samples ins (loop_iter i s)).
    { clear. generalize (loop_iter i s).
      induction ins as [| j ins IH]; intros x; cbn [samples]; [lia |].
      specialize (IH (loop_iter j x)). destruct (sample_due j x); lia. }
    destruct (sample_due i s).
    + destruct (pullup_cycle_bits pueb n Hp) as [Hr Hb].
      destruct (IH (loop_iter i s) _ Hr) as [Hr' Hb'].
      split; [exact Hr' |]. rewrite Hb', Hb.
      replace (0 <? 1 + samples ins (loop_iter i s)) with true
        by (symmetry; apply Z.ltb_lt; lia).
      destruct (0 <? samples ins (loop_iter i s)), (PUEB2 =? n); reflexivity.
    + rewrite Z.add_0_l. apply IH, Hp.
Qed.

(** X14.  The sampler enables the pull-up of the sensor pin only while it
    samples: during a sample bit 2 of [PUEB] is set; after a run of the
    loop every other bit of an 8-bit [PUEB] is as before and bit 2 is
    clear once a sample has been taken; in particular the button pull-up
    set at line 59 stays set. *)
Theorem pullup_only_while_sampling (ins : list input) (s : vars) (pueb n : Z) :
  0 <= pueb < 256 ->
  Z.testbit (pullup_enable pueb) PUEB2 = true /\
  (n <> PUEB2 ->
   Z.testbit (loop_run_PUEB ins s pueb) n = Z.testbit pueb n) /\
  (0 < samples ins s ->
   Z.testbit (loop_run_PUEB ins s pueb) PUEB2 = false) /\
  Z.testbit (loop_run_PUEB ins s (setup_PUEB pueb)) PUEB1 = true.
Proof.
  intros Hp. fold (is_u8 pueb) in Hp.
  split; [| split; [| split]].
  - unfold pullup_enable, PUEB2. rewrite testbit_set_bit by (assumption || lia).
    reflexivity.
  - intros Hn. destruct (loop_run_PUEB_bits ins s pueb n Hp) as [_ ->].
    destruct (Z.eqb_spec PUEB2 n); [congruence |].
    now rewrite andb_false_r.
  - intros Hs. destruct (loop_run_PUEB_bits ins s pueb PUEB2 Hp) as [_ ->].
    apply Z.ltb_lt in Hs. now rewrite Hs, Z.eqb_refl.
  - destruct (loop_run_PUEB_bits ins s (setup_PUEB pueb) PUEB1
                (is_u8_u8 _)) as [_ ->].
    change (PUEB2 =? PUEB1) with false. rewrite andb_false_r.
    unfold setup_PUEB, PUEB1. rewrite testbit_set_bit by (assumption || lia).
    reflexivity.
Qed.

Lemma pullup_only_while_sampling_witness :
  let ins := repeat (tick_in 25) 100 in
  samples ins (loop_init 0) = 3 /\
  Z.testbit (loop_run_PUEB ins (loop_init 0) (setup_PUEB 4)) PUEB1 = true /\
  Z.testbit (loop_run_PUEB ins (loop_init 0) 6) PUEB2 = false.
Proof.
  intros ins.
  assert (Hs : samples ins (loop_init 0) = 3) by (vm_compute; reflexivity).
  split; [exact Hs | split].
  - apply (pullup_only_while_sampling ins (loop_init 0) 4 0). lia.
  - apply (pullup_only_while_sampling ins (loop_init 0) 6 0); [lia |].
    rewrite Hs. lia.
Defined.

(** ** Iterations without a tick (lines 112-188) *)

Lemma auto_age_bounded (i : input) (s : vars) :
  fanOverride (loop_iter i s) = FAN_OVERRIDE_NONE ->
  hot (loop_iter i s) = 0 ->
  age (now (loop_iter i s)) (lastHotTime (loop_iter i s)) <= FAN_COOL_TIME.
Proof.
  unfold loop_iter. generalize (before_decide i s). intros s1.
  rewrite fanOverride_decide_step, hot_decide_step. intros Hf Hh.
  unfold decide_step. rewrite Hf, Hh, Z.eqb_refl. cbn [truthy Z.eqb negb orb].
  destruct (Z.ltb_spec (age (now s1) (lastHotTime s1)) FAN_COOL_TIME).
  - cbn [now lastHotTime FAN_ON set_PORTB]. lia.
  - cbn [now lastHotTime set_lastHotTime FAN_OFF set_PORTB].
    rewrite age_rewound. unfold FAN_COOL_TIME. cbn. lia.
Qed.

Lemma FAN_ON_again (s : vars) :
  is_u8 (PORTB s) -> fan_is_on s = true -> FAN_ON s = s.
Proof.
  intros Hp Hon. unfold FAN_ON.
  assert (E : u8 (Z.lor (PORTB s) (_BV PORTB0)) = PORTB s).
  { apply Z.bits_inj'. intros n _. unfold PORTB0.
    rewrite testbit_set_bit by (assumption || lia).
    destruct (Z.eqb_spec 0 n) as [<- | _]; [| reflexivity].
    exact (eq_sym Hon). }
  rewrite E. now destruct s.
Qed.

Lemma FAN_OFF_again (s : vars) :
  is_u8 (PORTB s) -> fan_is_on s = false -> FAN_OFF s = s.
Proof.
  intros Hp Hoff. unfold FAN_OFF.
  assert (E : u8 (Z.land (PORTB s) (Z.lnot (_BV PORTB0))) = PORTB s).
  { apply Z.bits_inj'. intros n _. unfold PORTB0.
    rewrite testbit_clear_bit by (assumption || lia).
    destruct (Z.eqb_spec 0 n) as [<- | _]; [| reflexivity].
    exact (eq_sym Hoff). }
  rewrite E. now destruct s.
Qed.

Lemma idle_iter (j : input) (s : vars) :
  sampled s -> vars_in_range s -> fan_is_on s = fan_law s ->
  (fanOverride s = FAN_OVERRIDE_NONE -> hot s = 0 ->
   age (now s) (lastHotTime s) <= FAN_COOL_TIME) ->
  wdt_timedout j = false ->
  press_edge j s = false -> release_edge j s = false ->
  loop_iter j s = s.
Proof.
  intros [Hage _] (Hn & Hm & Hl & Hh & Hb & Hf & Hp) Hlaw Hbound Hw Hpress Hrel.
  assert (E0 : before_input j s = s).
  { unfold before_input, sample_step. rewrite Hw. cbn [tick_step].
    rewrite Z.geb_leb. now apply Z.leb_gt in Hage as ->. }
  assert (E1 : before_decide j s = s).
  { unfold before_decide. rewrite E0. unfold input_step.
    unfold release_edge in Hrel. rewrite Hpress in Hrel. cbn [negb andb] in Hrel.
    unfold press_edge in Hpress. rewrite Hpress, Hrel. reflexivity. }
  unfold loop_iter. rewrite E1. unfold decide_step.
  unfold fan_law in Hlaw.
  destruct (Z.eqb_spec (fanOverride s) FAN_OVERRIDE_NONE) as [Ef | _];
    [| reflexivity].
  destruct (truthy (hot s) || (age (now s) (lastHotTime s) <? FAN_COOL_TIME))
    eqn:Hc.
  - now apply FAN_ON_again.
  - apply orb_false_iff in Hc. destruct Hc as [Hcold Hold].
    apply truthy_false in Hcold. apply Z.ltb_ge in Hold.
    specialize (Hbound Ef Hcold). rewrite FAN_OFF_again by assumption.
    assert (El : u8 (now s - FAN_COOL_TIME) = lastHotTime s).
    { unfold FAN_COOL_TIME, is_u8 in *. clear - Hn Hl Hold Hbound. mod256. }
    rewrite El. now destruct s.
Qed.

(** X15.  Waking up without a tick changes nothing: in any state the loop
    has reached from its entry after at least one iteration, a further
    iteration that finds the watchdog flag down and the button as it was
    (no press edge, no release) leaves every variable and the fan port
    exactly as they were. *)
Theorem wakeup_without_tick_is_idle
    (portb : Z) (ins : list input) (j : input) :
  0 <= portb < 256 ->
  ins <> [] ->
  let s := loop_run ins (loop_init portb) in
  wdt_timedout j = false ->
  press_edge j s = false -> release_edge j s = false ->
  loop_iter j s = s.
Proof.
  intros Hp Hne s Hw Hpress Hrel.
  apply idle_iter; try assumption.
  - apply sampled_loop_run, sampled_loop_init.
  - apply vars_in_range_loop_run, vars_in_range_loop_init, Hp.
  - apply fan_law_loop_run; [left; reflexivity | exact Hne].
  - subst s. destruct (exists_last Hne) as (ins0 & i & ->).
    rewrite loop_run_app. cbn [loop_run]. apply auto_age_bounded.
Qed.

Lemma wakeup_without_tick_is_idle_witness :
  let s := loop_run (repeat (tick_in 200) 40) (loop_init 0) in
  loop_iter (mkInput false 10 2 2) s = s.
Proof.
  intros s.
  apply (wakeup_without_tick_is_idle 0 (repeat (tick_in 200) 40)
           (mkInput false 10 2 2)).
  - lia.
  - discriminate.
  - reflexivity.
  - vm_compute. reflexivity.
  - vm_compute. reflexivity.
Defined.

(** ** One step per press (lines 155-157) *)

(** X16.  A press is taken once: the iteration after one that saw a press
    edge cannot see another, whatever the pin reads, so [fanOverride]
    keeps the value the press gave it. *)
Theorem no_second_edge (i j : input) (s : vars) :
  press_edge i s = true ->
  press_edge j (loop_iter i s) = false /\
  fanOverride (loop_iter j (loop_iter i s)) = next_override (fanOverride s).
Proof.
  intros Hp.
  assert (Hb : btnIsPressed (loop_iter i s) <> 0).
  { unfold loop_iter, before_decide. rewrite btnIsPressed_decide_step.
    unfold input_step. rewrite <- press_edge_before_input in Hp.
    unfold press_edge in Hp. rewrite Hp.
    rewrite btnIsPressed_cycle_override. discriminate. }
  assert (Hn : press_edge j (loop_iter i s) = false).
  { unfold press_edge. apply truthy_true in Hb. rewrite Hb.
    apply andb_false_r. }
  split; [exact Hn |].
  now rewrite !fanOverride_loop_iter, Hn, Hp.
Qed.

Lemma no_second_edge_witness :
  press_edge (press_in 25) (loop_init 0) = true /\
  fanOverride (loop_iter (press_in 25) (loop_iter (press_in 25) (loop_init 0)))
  = FAN_OVERRIDE_ON.
Proof.
  split; [reflexivity |].
  apply (no_second_edge (press_in 25) (press_in 25) (loop_init 0)).
  reflexivity.
Defined.
